(** * PipeRelay: a shallow embedding of [piperelay.py]

    The development follows the layout of the Python module: the values the
    program manipulates ([Py]), the [json] codec it calls ([Json]), then one
    module per class ([MessageObject], [NamedPipeInterface], [Root],
    [Main]).  Definitions come first, theorems last. *)

From Stdlib Require Import List Bool NArith ZArith QArith String Ascii Lia.
From Stdlib Require Import DecimalString.
Import ListNotations.

Local Open Scope N_scope.
Local Open Scope list_scope.

(* ================================================================= *)
(** ** Python values *)

Module Py.

(** A Python [str] is a sequence of Unicode code points. *)
Definition str := list N.

(** Rocq string literals stand for ASCII text. *)
Definition lit (s : string) : str := map N_of_ascii (list_ascii_of_string s).

Fixpoint str_eqb (a b : str) : bool :=
  match a, b with
  | [], [] => true
  | x :: a', y :: b' => (x =? y) && str_eqb a' b'
  | _, _ => false
  end.

(** [str.startswith] *)
Fixpoint startswith (s prefix : str) : bool :=
  match prefix, s with
  | [], _ => true
  | p :: prefix', c :: s' => (c =? p) && startswith s' prefix'
  | _ :: _, [] => false
  end.

(** [needle in haystack] for two strings: substring search. *)
Fixpoint str_contains (haystack needle : str) : bool :=
  startswith haystack needle ||
  match haystack with
  | [] => false
  | _ :: rest => str_contains rest needle
  end.

(** Every code point of a Python string is below [0x110000]. *)
Definition is_str (s : str) : bool := forallb (fun c => c <? 0x110000) s.

Definition is_high_surrogate (c : N) : bool := (0xd800 <=? c) && (c <=? 0xdbff).
Definition is_low_surrogate (c : N) : bool := (0xdc00 <=? c) && (c <=? 0xdfff).

(** No high surrogate code point is immediately followed by a low one. *)
Fixpoint no_surrogate_pair (s : str) : bool :=
  match s with
  | [] => true
  | c :: rest =>
      match rest with
      | [] => true
      | d :: _ => negb (is_high_surrogate c && is_low_surrogate d)
      end && no_surrogate_pair rest
  end.

(** The exceptions the program can raise.  [OperationalError] is neither
    defined nor imported by [piperelay.py]: evaluating
    [raise OperationalError(...)] raises [NameError] for that name. *)
Inductive exn :=
| KeyError (msg : str)
| JSONDecodeError
| TypeError
| NameError (name : str)
| UnboundLocalError (msg : str)
| OSError (msg : str)
| IndexError
| AttributeError
| PipeError.  (* any exception raised inside the wpipe collaborator *)

Inductive result (A : Type) :=
| Ok (a : A)
| Raise (e : exn).
Arguments Ok {A} a.
Arguments Raise {A} e.

Definition raised {A} (r : result A) : bool :=
  match r with Ok _ => false | Raise _ => true end.

End Py.

Import Py.

(* ================================================================= *)
(** ** The [json] module, as [piperelay.py] uses it

    [json.dumps(obj)] with the default options ([ensure_ascii=True],
    separators [", "] and [": "]) and [json.loads(s)] with the default
    decoder. *)

Module Json.

(** Decoded JSON values.  A [dict] is an association list in insertion
    order with unique keys.  A Python [float] is identified by the literal
    it was read from: float arithmetic and [repr] are not modelled. *)
#[warnings="-register-all"]
Inductive json :=
| JNull
| JBool (b : bool)
| JInt (z : Z)
| JFloat (literal : str)
| JStr (s : str)
| JArr (items : list json)
| JObj (members : list (str * json)).

Definition dict := list (str * json).

Fixpoint dict_get (k : str) (d : dict) : option json :=
  match d with
  | [] => None
  | (k', v) :: d' => if str_eqb k k' then Some v else dict_get k d'
  end.

Definition dict_contains (k : str) (d : dict) : bool :=
  match dict_get k d with Some _ => true | None => false end.

(** [d[k] = v]: overwrite in place, or append a new key. *)
Fixpoint dict_set (k : str) (v : json) (d : dict) : dict :=
  match d with
  | [] => [(k, v)]
  | (k', v') :: d' =>
      if str_eqb k k' then (k', v) :: d' else (k', v') :: dict_set k v d'
  end.

(** [dict(pairs)] *)
Definition dict_of_pairs (pairs : list (str * json)) : dict :=
  fold_left (fun d kv => dict_set (fst kv) (snd kv) d) pairs [].

(* ----------------------------------------------------------------- *)
(** *** Encoder *)

Definition hexdigit (d : N) : N := if d <? 10 then 48 + d else 87 + d.

(** ['{0:04x}'.format(n)] for [n < 0x10000] *)
Definition hex4 (n : N) : str :=
  [hexdigit (n / 4096 mod 16); hexdigit (n / 256 mod 16);
   hexdigit (n / 16 mod 16); hexdigit (n mod 16)].

Definition u_escape (n : N) : str := 92 :: 117 :: hex4 n.

(** The replacement of one character by [encode_basestring_ascii]:
    [ESCAPE_DCT] first, printable ASCII unchanged, everything else as
    [\uXXXX], with a surrogate pair above the BMP. *)
Definition escape_char (c : N) : str :=
  if c =? 92 then [92; 92]
  else if c =? 34 then [92; 34]
  else if c =? 8 then [92; 98]
  else if c =? 12 then [92; 102]
  else if c =? 10 then [92; 110]
  else if c =? 13 then [92; 114]
  else if c =? 9 then [92; 116]
  else if (32 <=? c) && (c <=? 126) then [c]
  else if c <? 0x10000 then u_escape c
  else
    let n := c - 0x10000 in
    u_escape (N.lor 0xd800 (N.land (N.shiftr n 10) 0x3ff))
      ++ u_escape (N.lor 0xdc00 (N.land n 0x3ff)).

Definition escape_body (s : str) : str := flat_map escape_char s.

Definition encode_basestring_ascii (s : str) : str :=
  34 :: escape_body s ++ [34].

Definition int_repr (z : Z) : str :=
  lit (NilZero.string_of_int (Z.to_int z)).

(** Items joined by [", "]. *)
Fixpoint join_items (chunks : list str) : str :=
  match chunks with
  | [] => []
  | [c] => c
  | c :: rest => c ++ lit ", " ++ join_items rest
  end.

Fixpoint dumps (v : json) : str :=
  match v with
  | JNull => lit "null"
  | JBool true => lit "true"
  | JBool false => lit "false"
  | JInt z => int_repr z
  | JFloat l => l
  | JStr s => encode_basestring_ascii s
  | JArr items => 91 :: join_items (map dumps items) ++ [93]
  | JObj members =>
      123 :: join_items
               (map (fun kv => encode_basestring_ascii (fst kv)
                                 ++ lit ": " ++ dumps (snd kv)) members)
        ++ [125]
  end.

(* ----------------------------------------------------------------- *)
(** *** Decoder *)

Definition is_ws (c : N) : bool :=
  (c =? 32) || (c =? 9) || (c =? 10) || (c =? 13).

(** [WHITESPACE.match(s, end).end()] *)
Fixpoint skip_ws (s : str) : str :=
  match s with
  | c :: r => if is_ws c then skip_ws r else s
  | [] => []
  end.

Definition hexval (c : N) : option N :=
  if (48 <=? c) && (c <=? 57) then Some (c - 48)
  else if (97 <=? c) && (c <=? 102) then Some (c - 87)
  else if (65 <=? c) && (c <=? 70) then Some (c - 55)
  else None.

Definition decode_uXXXX (h1 h2 h3 h4 : N) : option N :=
  match hexval h1, hexval h2, hexval h3, hexval h4 with
  | Some a, Some b, Some c, Some d => Some (((a * 16 + b) * 16 + c) * 16 + d)
  | _, _, _, _ => None
  end.

(** The [BACKSLASH] table. *)
Definition BACKSLASH (esc : N) : option N :=
  if esc =? 34 then Some 34
  else if esc =? 92 then Some 92
  else if esc =? 47 then Some 47
  else if esc =? 98 then Some 8
  else if esc =? 102 then Some 12
  else if esc =? 110 then Some 10
  else if esc =? 114 then Some 13
  else if esc =? 116 then Some 9
  else None.

Definition join_surrogates (uni uni2 : N) : N :=
  0x10000 + N.lor (N.shiftl (uni - 0xd800) 10) (uni2 - 0xdc00).

(** [scanstring(s, end)], entered just after the opening quote; [chunks]
    holds the characters decoded so far, most recent first.  The result is
    the decoded string and the text after the closing quote. *)
Fixpoint scanstring (s : str) (chunks : list N) {struct s}
  : option (str * str) :=
  match s with
  | [] => None
  | c :: r =>
      if c =? 34 then Some (rev chunks, r)
      else if c =? 92 then
        match r with
        | [] => None
        | esc :: r1 =>
            if esc =? 117 then
              match r1 with
              | h1 :: h2 :: h3 :: h4 :: r2 =>
                  match decode_uXXXX h1 h2 h3 h4 with
                  | None => None
                  | Some uni =>
                      if is_high_surrogate uni then
                        match r2 with
                        | b :: u :: r3 =>
                            if (b =? 92) && (u =? 117) then
                              match r3 with
                              | l1 :: l2 :: l3 :: l4 :: r4 =>
                                  match decode_uXXXX l1 l2 l3 l4 with
                                  | None => None
                                  | Some uni2 =>
                                      if is_low_surrogate uni2
                                      then scanstring r4
                                             (join_surrogates uni uni2 :: chunks)
                                      else scanstring r2 (uni :: chunks)
                                  end
                              | _ => None
                              end
                            else scanstring r2 (uni :: chunks)
                        | _ => scanstring r2 (uni :: chunks)
                        end
                      else scanstring r2 (uni :: chunks)
                  end
              | _ => None
              end
            else
              match BACKSLASH esc with
              | Some ch => scanstring r1 (ch :: chunks)
              | None => None
              end
        end
      else if c <? 32 then None
      else scanstring r (c :: chunks)
  end.

Definition is_digit (c : N) : bool := (48 <=? c) && (c <=? 57).

(** The longest prefix of digits, and what follows it. *)
Fixpoint span_digits (s : str) : str * str :=
  match s with
  | c :: r =>
      if is_digit c then let (ds, r') := span_digits r in (c :: ds, r')
      else ([], s)
  | [] => ([], [])
  end.

Definition digits_value (ds : str) : Z :=
  fold_left (fun acc c => (acc * 10 + Z.of_N (c - 48))%Z) ds 0%Z.

(** The integer part of [NUMBER_RE]: a single zero, or a non-zero digit
    followed by digits. *)
Definition match_intpart (s : str) : option (str * str) :=
  match s with
  | c :: r =>
      if c =? 48 then Some ([c], r)
      else if is_digit c then let (ds, r') := span_digits r in Some (c :: ds, r')
      else None
  | [] => None
  end.

(** The optional fraction: a dot and at least one digit. *)
Definition match_frac (s : str) : str * str :=
  match s with
  | c :: r =>
      if c =? 46 then
        match span_digits r with
        | ([], _) => ([], s)
        | (ds, r') => (c :: ds, r')
        end
      else ([], s)
  | [] => ([], s)
  end.

(** The optional exponent: [e] or [E], an optional sign, at least one
    digit. *)
Definition match_exp (s : str) : str * str :=
  match s with
  | e :: r =>
      if (e =? 101) || (e =? 69) then
        match r with
        | sg :: r1 =>
            if (sg =? 45) || (sg =? 43) then
              match span_digits r1 with
              | ([], _) => ([], s)
              | (ds, r') => (e :: sg :: ds, r')
              end
            else
              match span_digits r with
              | ([], _) => ([], s)
              | (ds, r') => (e :: ds, r')
              end
        | [] => ([], s)
        end
      else ([], s)
  | [] => ([], s)
  end.

(** [match_number], after [NUMBER_RE]: an optional minus sign, the integer
    part, an optional fraction and an optional exponent.  A literal with
    neither fraction nor exponent is an [int], any other a [float]. *)
Definition match_number (s : str) : option (json * str) :=
  let (neg, s1) :=
    match s with
    | c :: r => if c =? 45 then (true, r) else (false, s)
    | [] => (false, s)
    end in
  match match_intpart s1 with
  | None => None
  | Some (ip, s2) =>
      let (frac, s3) := match_frac s2 in
      let (ex, s4) := match_exp s3 in
      match frac, ex with
      | [], [] =>
          Some (JInt (if neg then - digits_value ip else digits_value ip)%Z, s4)
      | _, _ =>
          Some (JFloat ((if neg then [45] else []) ++ ip ++ frac ++ ex), s4)
      end
  end.

(** A literal keyword at the head of the text. *)
Definition keyword (kw : string) (v : json) (s : str) : option (json * str) :=
  if startswith s (lit kw)
  then Some (v, skipn (List.length (lit kw)) s)
  else None.

Definition scan_constant (s : str) : option (json * str) :=
  match s with
  | [] => None
  | c :: _ =>
      if c =? 110 then keyword "null" JNull s
      else if c =? 116 then keyword "true" (JBool true) s
      else if c =? 102 then keyword "false" (JBool false) s
      else
        match match_number s with
        | Some r => Some r
        | None =>
            if c =? 78 then keyword "NaN" (JFloat (lit "NaN")) s
            else if c =? 73 then keyword "Infinity" (JFloat (lit "Infinity")) s
            else if c =? 45 then keyword "-Infinity" (JFloat (lit "-Infinity")) s
            else None
        end
  end.

(** [scan_once], [JSONArray] and [JSONObject] call each other; [fuel]
    bounds the number of nested calls.  [JSONArray_loop] is entered at the
    start of an item, [JSONObject_loop] just after the opening quote of a
    property name. *)
Fixpoint scan_once (fuel : nat) (s : str) {struct fuel} : option (json * str) :=
  match fuel with
  | O => None
  | S fuel' =>
      match s with
      | [] => None
      | c :: r =>
          if c =? 34 then
            match scanstring r [] with
            | Some (x, r') => Some (JStr x, r')
            | None => None
            end
          else if c =? 123 then
            match skip_ws r with
            | c1 :: r1 =>
                if c1 =? 125 then Some (JObj [], r1)
                else if c1 =? 34 then JSONObject_loop fuel' r1 []
                else None
            | [] => None
            end
          else if c =? 91 then
            match skip_ws r with
            | c1 :: r1 =>
                if c1 =? 93 then Some (JArr [], r1)
                else JSONArray_loop fuel' (c1 :: r1) []
            | [] => None
            end
          else scan_constant s
      end
  end

with JSONArray_loop (fuel : nat) (s : str) (values : list json) {struct fuel}
  : option (json * str) :=
  match fuel with
  | O => None
  | S fuel' =>
      match scan_once fuel' s with
      | None => None
      | Some (value, r) =>
          match skip_ws r with
          | c :: r1 =>
              if c =? 93 then Some (JArr (values ++ [value]), r1)
              else if c =? 44 then
                JSONArray_loop fuel' (skip_ws r1) (values ++ [value])
              else None
          | [] => None
          end
      end
  end

with JSONObject_loop (fuel : nat) (s : str) (pairs : list (str * json))
       {struct fuel} : option (json * str) :=
  match fuel with
  | O => None
  | S fuel' =>
      match scanstring s [] with
      | None => None
      | Some (key, r) =>
          match skip_ws r with
          | c :: r1 =>
              if c =? 58 then
                match scan_once fuel' (skip_ws r1) with
                | None => None
                | Some (value, r2) =>
                    match skip_ws r2 with
                    | c2 :: r3 =>
                        if c2 =? 125 then
                          Some (JObj (dict_of_pairs (pairs ++ [(key, value)])), r3)
                        else if c2 =? 44 then
                          match skip_ws r3 with
                          | q :: r4 =>
                              if q =? 34
                              then JSONObject_loop fuel' r4 (pairs ++ [(key, value)])
                              else None
                          | [] => None
                          end
                        else None
                    | [] => None
                    end
                end
              else None
          | [] => None
          end
      end
  end.

(** [json.loads(s)]: [None] stands for [JSONDecodeError].  Twice the
    length of the text is fuel enough: more fuel never changes the result
    (see [scan_once_fuel] and [loads_fuel]). *)
Definition loads_with (fuel : nat) (s : str) : option json :=
  match scan_once fuel (skip_ws s) with
  | Some (v, r) =>
      match skip_ws r with
      | [] => Some v
      | _ :: _ => None
      end
  | None => None
  end.

Definition loads (s : str) : option json :=
  loads_with (S (2 * List.length s)) s.

End Json.

Import Json.

(** The [in] operator with a string on the left: key membership for a
    [dict], element membership for a [list], substring search for a [str];
    the other JSON values are not containers. *)
Definition py_eq_str (v : json) (k : str) : bool :=
  match v with JStr s => str_eqb s k | _ => false end.

Definition py_in (k : str) (container : json) : result bool :=
  match container with
  | JObj d => Ok (dict_contains k d)
  | JArr items => Ok (existsb (fun v => py_eq_str v k) items)
  | JStr s => Ok (str_contains s k)
  | _ => Raise TypeError
  end.

(** [container[k]] with a string subscript. *)
Definition py_getitem (container : json) (k : str) : result json :=
  match container with
  | JObj d =>
      match dict_get k d with
      | Some v => Ok v
      | None => Raise (KeyError k)
      end
  | _ => Raise TypeError
  end.

(* ================================================================= *)
(** ** class MessageObject *)

Module MessageObject.

Record t := __init__ {
  source : json;
  destination : json;
  content : json
}.

Definition to_json (self : t) : str :=
  let message_dict :=
    JObj [(lit "source", source self);
          (lit "destination", destination self);
          (lit "content", content self)] in
  dumps message_dict.

Definition as_dictionary (self : t) : json :=
  JObj [(lit "source", source self);
        (lit "destination", destination self);
        (lit "content", content self)].

Definition missing_item (item : str) : exn :=
  KeyError (lit "Required item " ++ item ++ lit " is not in provided message.").

(** The loop over [validate_set]. *)
Fixpoint validate (validate_set : list str) (message_dict : json)
  : result unit :=
  match validate_set with
  | [] => Ok tt
  | item :: rest =>
      match py_in item message_dict with
      | Raise e => Raise e
      | Ok false => Raise (missing_item item)
      | Ok true => validate rest message_dict
      end
  end.

Definition validate_set : list str :=
  [lit "content"; lit "source"; lit "destination"].

Definition from_json (message_json : str) : result t :=
  match loads message_json with
  | None => Raise JSONDecodeError
  | Some message_dict =>
      match validate validate_set message_dict with
      | Raise e => Raise e
      | Ok _ =>
          match py_getitem message_dict (lit "source") with
          | Raise e => Raise e
          | Ok src =>
              match py_getitem message_dict (lit "destination") with
              | Raise e => Raise e
              | Ok dst =>
                  match py_getitem message_dict (lit "content") with
                  | Raise e => Raise e
                  | Ok cnt => Ok (__init__ src dst cnt)
                  end
              end
          end
      end
  end.

End MessageObject.

(* ================================================================= *)
(** ** Effects

    What the program does to the outside world is recorded as a trace of
    events; a computation threads the state of the object it runs on and
    ends normally or by raising. *)

Module Eff.

Inductive event :=
| Print (text : str)
| PrintReadError (e : exn)
| PrintTransmitError (e : exn) (message_content : str)
| Write (peer : nat) (data : str)
| WaitForData
| Sleep (seconds : Q)
| CallSend (message_object : MessageObject.t).

Definition M (S A : Type) : Type := S -> list event * S * result A.

Definition ret {S A} (a : A) : M S A := fun s => ([], s, Ok a).

Definition bind {S A B} (m : M S A) (k : A -> M S B) : M S B :=
  fun s =>
    match m s with
    | (ev, s1, Ok a) => let '(ev', s2, r) := k a s1 in (ev ++ ev', s2, r)
    | (ev, s1, Raise e) => (ev, s1, Raise e)
    end.

Definition raise {S A} (e : exn) : M S A := fun s => ([], s, Raise e).
Definition emit {S} (e : event) : M S unit := fun s => ([e], s, Ok tt).
Definition get {S} : M S S := fun s => ([], s, Ok s).
Definition modify {S} (f : S -> S) : M S unit := fun s => ([], f s, Ok tt).

Definition lift {S A} (r : result A) : M S A := fun s => ([], s, r).

(** [try: body  except Exception as e: handler(e)] *)
Definition try_except {S A} (body : M S A) (handler : exn -> M S A) : M S A :=
  fun s =>
    match body s with
    | (ev, s1, Raise e) => let '(ev', s2, r) := handler e s1 in (ev ++ ev', s2, r)
    | done => done
    end.

(** [try: body  finally: cleanup] *)
Definition finally {S A} (body : M S A) (cleanup : M S unit) : M S A :=
  fun s =>
    let '(ev, s1, r) := body s in
    match cleanup s1 with
    | (ev', s2, Ok _) => (ev ++ ev', s2, r)
    | (ev', s2, Raise e) => (ev ++ ev', s2, Raise e)
    end.

(** Run a computation of a component on that component of the state. *)
Definition zoom {S T A} (proj : S -> T) (upd : T -> S -> S) (m : M T A)
  : M S A :=
  fun s => let '(ev, t, r) := m (proj s) in (ev, upd t s, r).

(** [for x in xs: body(x)] *)
Fixpoint for_each {S X} (xs : list X) (body : X -> M S unit) : M S unit :=
  match xs with
  | [] => ret tt
  | x :: rest => bind (body x) (fun _ => for_each rest body)
  end.

Definition events {S A} (out : list event * S * result A) : list event :=
  fst (fst out).
Definition state {S A} (out : list event * S * result A) : S := snd (fst out).
Definition outcome {S A} (out : list event * S * result A) : result A :=
  snd out.

End Eff.

Import Eff.

Notation "x <- m ;; k" := (bind m (fun x => k))
  (at level 61, m at next level, right associativity).
Notation "m ;; k" := (bind m (fun _ => k))
  (at level 61, right associativity).

(* ================================================================= *)
(** ** The wpipe collaborator

    Only its interface is modelled: what each call answers is given with
    the handle. *)

Module wpipe.

(** One connected peer of a [wpipe.Server]. *)
Record Client_ := {
  client_id : nat;
  canread : result bool;
  read : result str;
  write_ok : str -> bool
}.

(** A [wpipe.Client]: [polls] are the answers of successive
    [client.canread()] calls; once they are used up the peer is readable. *)
Record ClientEnd := {
  polls : list bool;
  client_read : result str;
  client_write_ok : str -> bool
}.

Inductive handle :=
| Server (clients : list Client_)
| Client (c : ClientEnd).

End wpipe.

(* ================================================================= *)
(** ** class NamedPipeInterface *)

Module NamedPipeInterface.

Record t := {
  mode : option str;
  _pipe_name : str;
  pipe_handle : option wpipe.handle
}.

Definition set_pipe_name (name : str) (self : t) : t :=
  {| mode := mode self; _pipe_name := name; pipe_handle := pipe_handle self |}.

Definition set_bound (h : wpipe.handle) (m : str) (self : t) : t :=
  {| mode := Some m; _pipe_name := _pipe_name self; pipe_handle := Some h |}.

(** Truth value of an optional string: [None] and the empty string are
    false. *)
Definition truthy (name : option str) : bool :=
  match name with
  | None | Some [] => false
  | Some (_ :: _) => true
  end.

Definition __init__ (os_name : str) : result t :=
  if str_eqb os_name (lit "nt")
  then Ok {| mode := None; _pipe_name := []; pipe_handle := None |}
  else Raise (OSError (lit "This class only works on Windows!")).

Definition is_server (self : t) : bool :=
  match mode self with
  | Some m => str_eqb m (lit "SERVER")
  | None => false
  end.

(** [raise OperationalError(...)]: the name is not bound anywhere in the
    module, so what is raised is the [NameError] of its lookup. *)
Definition OperationalError {A} : M t A :=
  raise (NameError (lit "OperationalError")).

Definition _handle_name (name : option str) : M t str :=
  match name with
  | Some (c :: n) =>
      (* Name provided as argument takes precedence over stored name *)
      modify (set_pipe_name (c :: n)) ;;
      ret (c :: n)
  | _ =>
      self <- get ;;
      match _pipe_name self with
      | [] => raise (UnboundLocalError
                       (lit "Unable to create or bind pipe: No name provided."))
      | stored => ret stored
      end
  end.

Section Collaborator.

(** The constructors [wpipe.Server(name, wpipe.Mode.Master)] and
    [wpipe.Client(name, wpipe.Mode.Slave)]. *)
Variable wpipe_Server : str -> result wpipe.handle.
Variable wpipe_Client : str -> result wpipe.handle.

Definition bind (name : option str) : M t unit :=
  name <- _handle_name name ;;
  self <- get ;;
  match pipe_handle self with
  | Some _ => OperationalError
  | None =>
      emit (Print (lit "[+] Binding wpipe server to name: " ++ name)) ;;
      h <- lift (wpipe_Server name) ;;
      modify (set_bound h (lit "SERVER"))
  end.

Definition connect (name : option str) : M t unit :=
  name <- _handle_name name ;;
  self <- get ;;
  match pipe_handle self with
  | Some _ => OperationalError
  | None =>
      h <- lift (wpipe_Client name) ;;
      modify (set_bound h (lit "CLIENT"))
  end.

End Collaborator.

(** [client.write(data)] *)
Definition client_write (data : str) (client : wpipe.Client_) : M t unit :=
  if wpipe.write_ok client data
  then emit (Write (wpipe.client_id client) data)
  else raise PipeError.

(** The body of the [for client in self.pipe_handle] loop of [recv]; the
    messages read so far are threaded through. *)
Definition recv_client (client : wpipe.Client_)
  (returnvalue : list MessageObject.t) : M t (list MessageObject.t) :=
  try_except
    (readable <- lift (wpipe.canread client) ;;
     if (readable : bool) then
       client_message <- lift (wpipe.read client) ;;
       message <- lift (MessageObject.from_json client_message) ;;
       ret (returnvalue ++ [message])
     else ret returnvalue)
    (fun e => emit (PrintReadError e) ;; ret returnvalue).

Fixpoint recv_clients (clients : list wpipe.Client_)
  (returnvalue : list MessageObject.t) : M t (list MessageObject.t) :=
  match clients with
  | [] => ret returnvalue
  | client :: rest =>
      returnvalue <- recv_client client returnvalue ;;
      recv_clients rest returnvalue
  end.

(** [while not self.pipe_handle.client.canread(): time.sleep(0.5)] *)
Fixpoint poll_until_readable (answers : list bool) : M t unit :=
  match answers with
  | false :: rest => emit (Sleep (1 # 2)) ;; poll_until_readable rest
  | _ => ret tt
  end.

(** [not self.pipe_handle or not self.mode]; a handle object is true. *)
Definition unbound (self : t) : bool :=
  match pipe_handle self with None => true | Some _ => false end
  || negb (truthy (mode self)).

Definition recv : M t (list MessageObject.t) :=
  self <- get ;;
  if unbound self then OperationalError
  else if is_server self then
    match pipe_handle self with
    | Some (wpipe.Server clients) =>
        emit WaitForData ;;
        recv_clients clients []
    | _ => raise AttributeError
    end
  else
    match pipe_handle self with
    | Some (wpipe.Client c) =>
        match wpipe.polls c with
        | false :: rest => poll_until_readable rest
        | _ => ret tt
        end ;;
        server_message <- lift (wpipe.client_read c) ;;
        match server_message with
        | [] => ret []
        | _ :: _ =>
            message <- lift (MessageObject.from_json server_message) ;;
            ret [message]
        end
    | _ => raise AttributeError
    end.

Definition send (message_object : MessageObject.t) : M t unit :=
  self <- get ;;
  if unbound self then OperationalError
  else if is_server self
          && negb (py_eq_str (MessageObject.destination message_object)
                     (lit "NORELAY"))
  then
    match pipe_handle self with
    | Some (wpipe.Server clients) =>
        for_each clients (client_write (MessageObject.to_json message_object))
    | _ => raise TypeError
    end
  else if negb (is_server self) then
    match pipe_handle self with
    | Some (wpipe.Client c) =>
        let data := MessageObject.to_json message_object in
        if wpipe.client_write_ok c data then emit (Write 0 data)
        else raise PipeError
    | _ => raise AttributeError
    end
  else
    emit (Print (lit "[+] NORELAY flag set in message: "
                   ++ MessageObject.to_json message_object)).

End NamedPipeInterface.

(* ================================================================= *)
(** ** class Root *)

Module Root.

(** [thread_pool] only keeps the thread object and is left out. *)
Record t := {
  alive : bool;
  message_queue : list str;
  server : NamedPipeInterface.t
}.

Definition __init__ (bound_server : NamedPipeInterface.t) : t :=
  {| alive := false; message_queue := []; server := bound_server |}.

Definition set_queue (q : list str) (self : t) : t :=
  {| alive := alive self; message_queue := q; server := server self |}.

Definition set_server (srv : NamedPipeInterface.t) (self : t) : t :=
  {| alive := alive self; message_queue := message_queue self; server := srv |}.

Definition set_alive (b : bool) (self : t) : t :=
  {| alive := b; message_queue := message_queue self; server := server self |}.

(** [self.message_queue[0]] *)
Definition queue_head : M t str :=
  self <- get ;;
  match message_queue self with
  | head :: _ => ret head
  | [] => raise IndexError
  end.

(** [self.message_queue.pop(0)] *)
Definition queue_pop : M t unit :=
  self <- get ;;
  match message_queue self with
  | _ :: rest => modify (set_queue rest)
  | [] => raise IndexError
  end.

(** [self.server.send(message)], recorded as a call. *)
Definition server_send (message : MessageObject.t) : M t unit :=
  emit (CallSend message) ;;
  zoom server set_server (NamedPipeInterface.send message).

(** One pass of the [while self.alive] loop of [_message_thread]. *)
Definition _message_thread_pass : M t unit :=
  self <- get ;;
  match message_queue self with
  | _ :: _ =>
      finally
        (try_except
           (head <- queue_head ;;
            message <- lift (MessageObject.from_json head) ;;
            server_send message)
           (fun e => head <- queue_head ;; emit (PrintTransmitError e head)))
        queue_pop
  | [] => emit (Sleep (1 # 2))
  end.

(** The first [passes] passes of [_message_thread]; the loop ends earlier
    when [alive] is found cleared or an exception escapes. *)
Fixpoint _message_thread (passes : nat) : M t unit :=
  match passes with
  | O => ret tt
  | S n =>
      self <- get ;;
      if alive self then _message_thread_pass ;; _message_thread n
      else ret tt
  end.

(** The thread itself is not modelled: starting it sets the flag. *)
Definition start_message_thread : M t unit := modify (set_alive true).

Definition operation_result (successful : bool) : json :=
  JObj [(lit "operation", JStr (lit "POST")); (lit "successful", JBool successful)].

(** The loop over [validate_set] in [post_interface]: it clears the flag
    for every absent key and goes on. *)
Fixpoint check_keys (validate_set : list str) (received_message : json)
  (successful : bool) : result bool :=
  match validate_set with
  | [] => Ok successful
  | key :: rest =>
      match py_in key received_message with
      | Raise e => Raise e
      | Ok present =>
          check_keys rest received_message (if present then successful else false)
      end
  end.

Definition validate_set : list str :=
  [lit "source"; lit "destination"; lit "content"].

(** [received_message] is [cherrypy.request.json], the request body as
    decoded by the [json_in] tool. *)
Definition post_interface (received_message : json) : M t json :=
  successful <- lift (check_keys validate_set received_message true) ;;
  (if (successful : bool) then
     emit (Print (lit "[+] Broadcasting message: " ++ dumps received_message)) ;;
     modify (fun self =>
               set_queue (message_queue self ++ [dumps received_message]) self)
   else ret tt) ;;
  ret (operation_result successful).

End Root.

(* ================================================================= *)
(** ** class Main *)

Module Main.

Definition acknowledgement_message : MessageObject.t :=
  MessageObject.__init__ (JStr (lit "PIPECLIENT")) (JStr (lit "NORELAY"))
    (JStr (lit "Acknowledged")).

Definition pipe_send (message : MessageObject.t) : M NamedPipeInterface.t unit :=
  emit (CallSend message) ;;
  NamedPipeInterface.send message.

(** One pass of the [while self.client_active] loop of [_client_thread],
    run on [self.pipe_object]. *)
Definition _client_thread_pass : M NamedPipeInterface.t unit :=
  messages <- NamedPipeInterface.recv ;;
  match messages with
  | _ :: _ =>
      pipe_send acknowledgement_message ;;
      for_each messages
        (fun message => emit (Print (MessageObject.to_json message)))
  | [] => ret tt
  end.

End Main.

(* ================================================================= *)
(** ** Definitions used in the statements and proofs *)

(** JSON text written with single quotes standing for double quotes. *)
Definition json_text (s : string) : str :=
  map (fun c => if c =? 39 then 34 else c) (lit s).

(** A string field that survives the codec: a Python string in which no
    high surrogate is immediately followed by a low surrogate. *)
Definition valid_field (s : str) : bool := is_str s && no_surrogate_pair s.

Definition head_not_low (s : str) : bool :=
  match s with [] => true | d :: _ => negb (is_low_surrogate d) end.

(** What [scanstring] finds after a high surrogate escape. *)
Inductive lookahead := NoPair | Pair (uni2 : N) (r4 : str) | BadEscape.

Definition low_follows (r2 : str) : lookahead :=
  match r2 with
  | b :: u :: r3 =>
      if (b =? 92) && (u =? 117) then
        match r3 with
        | l1 :: l2 :: l3 :: l4 :: r4 =>
            match decode_uXXXX l1 l2 l3 l4 with
            | None => BadEscape
            | Some uni2 => if is_low_surrogate uni2 then Pair uni2 r4 else NoPair
            end
        | _ => BadEscape
        end
      else NoPair
  | _ => NoPair
  end.

(** The four shapes of an escaped character. *)
Inductive escape_shape (c : N) : str -> Prop :=
| EsShort e : BACKSLASH e = Some c -> e <> 117 -> escape_shape c [92; e]
| EsPlain : c <> 34 -> c <> 92 -> 32 <= c -> escape_shape c [c]
| EsBmp : c < 0x10000 -> escape_shape c (u_escape c)
| EsAstral n : c = 0x10000 + n -> n < 0x100000 ->
    escape_shape c (u_escape (0xd800 + n / 1024) ++ u_escape (0xdc00 + n mod 1024)).

(** The text of one member with a string value, and what [JSONObject]
    does once a member has been read. *)
Definition member_text (k v rest : str) : str :=
  34 :: escape_body k ++ 34 :: 58 :: 32 :: 34 :: escape_body v ++ 34 :: rest.

Definition after_member (fuel : nat) (pairs : list (str * json)) (rest : str)
  : option (json * str) :=
  match skip_ws rest with
  | c2 :: r3 =>
      if c2 =? 125 then Some (JObj (dict_of_pairs pairs), r3)
      else if c2 =? 44 then
        match skip_ws r3 with
        | q :: r4 => if q =? 34 then JSONObject_loop fuel r4 pairs else None
        | [] => None
        end
      else None
  | [] => None
  end.

(** The first of [content], [source], [destination] that is not [in] the
    decoded value. *)
Definition first_absent (v : json) : option str :=
  find (fun k => match py_in k v with Ok false => true | _ => false end)
    MessageObject.validate_set.

(** The states a session goes through: no channel and no mode, or a
    channel with a mode and a remembered name. *)
Definition consistent (self : NamedPipeInterface.t) : Prop :=
  match NamedPipeInterface.pipe_handle self with
  | None => NamedPipeInterface.mode self = None
  | Some _ =>
      NamedPipeInterface.truthy (NamedPipeInterface.mode self) = true /\
      NamedPipeInterface._pipe_name self <> []
  end.

(** Observations on a trace. *)
Definition sends (trace : list event) : list MessageObject.t :=
  flat_map (fun e => match e with CallSend m => [m] | _ => [] end) trace.

Definition writes (trace : list event) : list (nat * str) :=
  flat_map (fun e => match e with Write p d => [(p, d)] | _ => [] end) trace.

Definition prints (trace : list event) : list str :=
  flat_map (fun e => match e with Print t => [t] | _ => [] end) trace.

(** The payloads of a queue that parse as a message, in queue order. *)
Definition parsed (queue : list str) : list MessageObject.t :=
  flat_map (fun v => match MessageObject.from_json v with
                     | Ok m => [m]
                     | Raise _ => []
                     end) queue.

(** What one peer yields to a SERVER [recv]: readable, read and parsed. *)
Definition peer_outcome (client : wpipe.Client_) : result (list MessageObject.t) :=
  match wpipe.canread client with
  | Raise e => Raise e
  | Ok false => Ok []
  | Ok true =>
      match wpipe.read client with
      | Raise e => Raise e
      | Ok text =>
          match MessageObject.from_json text with
          | Raise e => Raise e
          | Ok m => Ok [m]
          end
      end
  end.

Definition delivered (client : wpipe.Client_) : list MessageObject.t :=
  match peer_outcome client with Ok ms => ms | Raise _ => [] end.

Definition read_log (client : wpipe.Client_) : list event :=
  match peer_outcome client with Ok _ => [] | Raise e => [PrintReadError e] end.

Definition write_event (data : str) (client : wpipe.Client_) : event :=
  Write (wpipe.client_id client) data.

(* ----------------------------------------------------------------- *)
(** *** The SERVER process

    HTTP requests and passes of the drain loop interleave; the transport
    may change between two of them.  An exception escaping a request
    handler ends that request only. *)

Module ServerProcess.

Inductive action :=
| Post (received_message : json)
| Pass
| Transport (srv : NamedPipeInterface.t).

Definition step (a : action) : M Root.t unit :=
  match a with
  | Post received_message =>
      try_except (Root.post_interface received_message ;; ret tt)
        (fun _ => ret tt)
  | Pass =>
      self <- get ;;
      if Root.alive self then Root._message_thread_pass else ret tt
  | Transport srv => modify (Root.set_server srv)
  end.

Definition run (schedule : list action) : M Root.t unit :=
  for_each schedule step.

(** The payloads the requests of a schedule append to the queue. *)
Definition pushed (schedule : list action) : list str :=
  flat_map (fun a => match a with
                     | Post body =>
                         match Root.check_keys Root.validate_set body true with
                         | Ok true => [dumps body]
                         | _ => []
                         end
                     | _ => []
                     end) schedule.

End ServerProcess.

(* ----------------------------------------------------------------- *)
(** *** Sample sessions *)

Module Sample.

Definition peer (id : nat) (incoming : result str) (accepts : bool)
  : wpipe.Client_ :=
  {| wpipe.client_id := id; wpipe.canread := Ok true;
     wpipe.read := incoming; wpipe.write_ok := fun _ => accepts |}.

Definition hello : MessageObject.t :=
  MessageObject.__init__ (JStr (lit "A")) (JStr (lit "B")) (JStr (lit "hi")).

(** Three peers: the second refuses writes and its read raises. *)
Definition three_peers : list wpipe.Client_ :=
  [peer 1 (Ok (MessageObject.to_json hello)) true;
   peer 2 (Raise PipeError) false;
   peer 3 (Ok (json_text "{'source': 'C', 'destination': 'D', 'content': 'yo'}"))
     true].

Definition server_session (clients : list wpipe.Client_) : NamedPipeInterface.t :=
  {| NamedPipeInterface.mode := Some (lit "SERVER");
     NamedPipeInterface._pipe_name := lit "relay";
     NamedPipeInterface.pipe_handle := Some (wpipe.Server clients) |}.

Definition client_session (c : wpipe.ClientEnd) : NamedPipeInterface.t :=
  {| NamedPipeInterface.mode := Some (lit "CLIENT");
     NamedPipeInterface._pipe_name := lit "relay";
     NamedPipeInterface.pipe_handle := Some (wpipe.Client c) |}.

Definition fresh_session : NamedPipeInterface.t :=
  {| NamedPipeInterface.mode := None;
     NamedPipeInterface._pipe_name := [];
     NamedPipeInterface.pipe_handle := None |}.

(** A collaborator whose constructors always fail, and one whose
    constructors always succeed. *)
Definition refuse (_ : str) : result wpipe.handle := Raise PipeError.
Definition accept_server (_ : str) : result wpipe.handle := Ok (wpipe.Server []).
Definition accept_client (_ : str) : result wpipe.handle :=
  Ok (wpipe.Client {| wpipe.polls := []; wpipe.client_read := Ok [];
                      wpipe.client_write_ok := fun _ => true |}).

End Sample.

Module SampleRoot.

(** A running server whose queue holds a payload that is not JSON, a
    well-formed envelope and a payload that lacks a field. *)
Definition queue : list str :=
  [lit "{not json";
   MessageObject.to_json Sample.hello;
   json_text "{'source': 'A', 'content': 'hi'}"].

Definition running (q : list str) : Root.t :=
  {| Root.alive := true; Root.message_queue := q;
     Root.server := Sample.server_session Sample.three_peers |}.

End SampleRoot.

Module SampleClient.

(** A client whose peer answers the third [canread()] with true and
    then delivers one envelope. *)
Definition session : NamedPipeInterface.t :=
  Sample.client_session
    {| wpipe.polls := [false; false; true];
       wpipe.client_read := Ok (MessageObject.to_json Sample.hello);
       wpipe.client_write_ok := fun _ => true |}.

(** A client whose read yields no content. *)
Definition idle : NamedPipeInterface.t :=
  Sample.client_session
    {| wpipe.polls := []; wpipe.client_read := Ok [];
       wpipe.client_write_ok := fun _ => true |}.

End SampleClient.

(* ================================================================= *)
(** ** The rest of the module *)

(** [Helpers.verify_os_is]: [os.name == os_name]. *)
Module Helpers.


End Helpers.

(** Printable ASCII, the characters a serialization is made of. *)
Definition printable (c : N) : bool := (32 <=? c) && (c <=? 126).

(* ----------------------------------------------------------------- *)
(** *** Calls on a session, one after the other *)

Module Session.

Inductive call :=
| Bind (name : option str)
| Connect (name : option str)
| Send (message_object : MessageObject.t)
| Recv.

Section Collaborator.

Variable wpipe_Server : str -> result wpipe.handle.
Variable wpipe_Client : str -> result wpipe.handle.

(** One call by a caller that catches whatever it raises; the flag tells
    whether it raised. *)
Definition perform (c : call) : M NamedPipeInterface.t bool :=
  try_except
    (match c with
     | Bind name => NamedPipeInterface.bind wpipe_Server name
     | Connect name => NamedPipeInterface.connect wpipe_Client name
     | Send m => NamedPipeInterface.send m
     | Recv => NamedPipeInterface.recv ;; ret tt
     end ;; ret false)
    (fun _ => ret true).

Fixpoint perform_all (calls : list call) : M NamedPipeInterface.t (list bool) :=
  match calls with
  | [] => ret []
  | c :: rest =>
      failed <- perform c ;;
      others <- perform_all rest ;;
      ret (failed :: others)
  end.

End Collaborator.

End Session.

(* ----------------------------------------------------------------- *)
(** *** The client loop and the process around it *)

Module ClientLoop.

(** The first [passes] passes of [Main._client_thread], for a
    [client_active] flag that stays set: nothing in the module clears it,
    so the loop ends only when a pass raises. *)
Fixpoint _client_thread (passes : nat) : M NamedPipeInterface.t unit :=
  match passes with
  | O => ret tt
  | S n => Main._client_thread_pass ;; _client_thread n
  end.

End ClientLoop.

Module Process.

(** What the process does beyond the events of the classes: the calls
    into cherrypy and the closing of the pipe. *)
Inductive event :=
| Core (e : Eff.event)
| ConfigUpdate (port : Z)
| Quickstart
| Close.

(** The parsed command line. *)
Record args := {
  mode : str;
  name : str;
  port : Z
}.

(** [Main]: [root_object] is built on [pipe_object] once the pipe is
    bound, and the pipe object is not assigned to afterwards. *)
Record t := {
  root_object : option Root.t;
  pipe_object : option NamedPipeInterface.t;
  client_active : bool
}.

Definition __init__ : t :=
  {| root_object := None; pipe_object := None; client_active := false |}.

Definition out (A : Type) : Type := list event * t * result A.

(** [NamedPipeInterface.close]: [self.pipe_handle.close()], which is an
    attribute lookup on [None] when no channel was opened; the
    collaborator's [close] is taken to return. *)
Definition close (pipe : NamedPipeInterface.t) : list event * result unit :=
  match NamedPipeInterface.pipe_handle pipe with
  | None => ([], Raise AttributeError)
  | Some _ => ([Close], Ok tt)
  end.

(** [Main.quit]: [self.pipe_object.close()]. *)
Definition quit (self : t) : out unit :=
  match pipe_object self with
  | None => ([], self, Raise AttributeError)
  | Some pipe => let (ev, r) := close pipe in (ev, self, r)
  end.

Section World.

(** [os.name], the wpipe constructors, the number of passes the client
    loop is followed for, and what happens while [cherrypy.quickstart]
    serves: requests and passes of the drain thread, in some order. *)
Variable os_dot_name : str.
Variable wpipe_Server : str -> result wpipe.handle.
Variable wpipe_Client : str -> result wpipe.handle.
Variable passes : nat.
Variable schedule : list ServerProcess.action.

Definition with_pipe (pipe : NamedPipeInterface.t) (self : t) : t :=
  {| root_object := root_object self; pipe_object := Some pipe;
     client_active := client_active self |}.

Definition with_root (root : Root.t) (self : t) : t :=
  {| root_object := Some root; pipe_object := pipe_object self;
     client_active := client_active self |}.

Definition activate (self : t) : t :=
  {| root_object := root_object self; pipe_object := pipe_object self;
     client_active := true |}.

Definition entry_point (a : args) (self : t) : out unit :=
  match NamedPipeInterface.__init__ os_dot_name with
  | Raise e => ([], self, Raise e)
  | Ok pipe =>
      let self := with_pipe pipe self in
      if str_eqb (mode a) (lit "client") then
        let self := activate self in
        match NamedPipeInterface.connect wpipe_Client (Some (name a)) pipe with
        | (ev, pipe, Raise e) => (map Core ev, with_pipe pipe self, Raise e)
        | (ev, pipe, Ok _) =>
            let '(ev', pipe', r) := ClientLoop._client_thread passes pipe in
            (map Core (ev ++ ev'), with_pipe pipe' self, r)
        end
      else
        match NamedPipeInterface.bind wpipe_Server (Some (name a)) pipe with
        | (ev, pipe, Raise e) => (map Core ev, with_pipe pipe self, Raise e)
        | (ev, pipe, Ok _) =>
            let self := with_pipe pipe self in
            let '(ev0, root, _) :=
              Root.start_message_thread (Root.__init__ pipe) in
            let '(ev', root', r) := ServerProcess.run schedule root in
            (map Core (ev ++ ev0) ++ ConfigUpdate (port a) :: Quickstart
               :: map Core ev',
             with_root root' self, r)
        end
  end.

(** The [__main__] block: [try: entry_point(args) finally: quit()]. *)
Definition main (a : args) : out unit :=
  let '(ev, self, r) := entry_point a __init__ in
  match quit self with
  | (ev', self', Ok _) => (ev ++ ev', self', r)
  | (ev', self', Raise e) => (ev ++ ev', self', Raise e)
  end.

End World.

End Process.

(** The name a call of [bind] or [connect] ends up with: the argument when
    it is a non-empty string, the remembered name otherwise. *)
Definition chosen_name (name : option str) (self : NamedPipeInterface.t) : str :=
  match name with
  | Some (c :: n) => c :: n
  | _ => NamedPipeInterface._pipe_name self
  end.

Definition is_open_call (c : Session.call) : bool :=
  match c with
  | Session.Bind _ | Session.Connect _ => true
  | _ => false
  end.


Definition is_sleep (e : event) : bool :=
  match e with Sleep _ => true | _ => false end.

Definition has_channel (self : Process.t) : bool :=
  match Process.pipe_object self with
  | Some pipe =>
      match NamedPipeInterface.pipe_handle pipe with
      | Some _ => true
      | None => false
      end
  | None => false
  end.

(* ================================================================= *)
(** ** The [json] codec on strings *)

Ltac Zify.zify_post_hook ::= Z.to_euclidean_division_equations.

Lemma land_shifted_small a b k : b < 2 ^ k -> N.land (a * 2 ^ k) b = 0.
Proof.
  intros Hb. apply N.bits_inj. intros i.
  rewrite N.land_spec, N.bits_0.
  destruct (N.lt_ge_cases i k) as [Hi | Hi].
  - now rewrite N.mul_pow2_bits_low.
  - rewrite <- (N.mod_small b (2 ^ k)) by exact Hb.
    now rewrite N.mod_pow2_bits_high, andb_false_r.
Qed.

Lemma lor_shifted_small a b k : b < 2 ^ k -> N.lor (a * 2 ^ k) b = a * 2 ^ k + b.
Proof.
  intros Hb. pose proof (land_shifted_small a b k Hb) as H.
  now rewrite (N.add_nocarry_lxor _ _ H), (N.lxor_lor _ _ H).
Qed.

Lemma high_half n : n < 0x100000 ->
  N.lor 0xd800 (N.land (N.shiftr n 10) 0x3ff) = 0xd800 + n / 1024.
Proof.
  intros Hn. rewrite N.shiftr_div_pow2.
  change 0x3ff with (N.ones 10). rewrite N.land_ones.
  change (2 ^ 10) with 1024.
  assert (Hq : n / 1024 < 1024) by (apply N.Div0.div_lt_upper_bound; lia).
  rewrite N.mod_small by exact Hq.
  change 0xd800 with (54 * 2 ^ 10). apply lor_shifted_small. exact Hq.
Qed.

Lemma low_half n :
  N.lor 0xdc00 (N.land n 0x3ff) = 0xdc00 + n mod 1024.
Proof.
  change 0x3ff with (N.ones 10). rewrite N.land_ones.
  change 0xdc00 with (55 * 2 ^ 10). apply lor_shifted_small.
  apply N.mod_lt. discriminate.
Qed.

Lemma join_halves n : n < 0x100000 ->
  join_surrogates (0xd800 + n / 1024) (0xdc00 + n mod 1024) = 0x10000 + n.
Proof.
  intros Hn. unfold join_surrogates.
  replace (0xd800 + n / 1024 - 0xd800) with (n / 1024) by lia.
  replace (0xdc00 + n mod 1024 - 0xdc00) with (n mod 1024) by lia.
  rewrite N.shiftl_mul_pow2, lor_shifted_small by (apply N.mod_lt; discriminate).
  change (2 ^ 10) with 1024. f_equal.
  rewrite (N.div_mod n 1024) at 3 by discriminate. lia.
Qed.

Lemma hexval_hexdigit d : d < 16 -> hexval (hexdigit d) = Some d.
Proof.
  intros Hd.
  assert (H : List.In d [0;1;2;3;4;5;6;7;8;9;10;11;12;13;14;15]).
  { simpl. lia. }
  simpl in H.
  repeat (destruct H as [<- | H]; [reflexivity |]). contradiction.
Qed.

Lemma decode_hex4 n : n < 0x10000 ->
  decode_uXXXX (hexdigit (n / 4096 mod 16)) (hexdigit (n / 256 mod 16))
    (hexdigit (n / 16 mod 16)) (hexdigit (n mod 16)) = Some n.
Proof.
  intros Hn. unfold decode_uXXXX.
  rewrite !hexval_hexdigit by (apply N.mod_lt; discriminate).
  f_equal. lia.
Qed.

Lemma scanstring_u h1 h2 h3 h4 r2 acc uni :
  decode_uXXXX h1 h2 h3 h4 = Some uni ->
  scanstring (92 :: 117 :: h1 :: h2 :: h3 :: h4 :: r2) acc =
    if is_high_surrogate uni then
      match low_follows r2 with
      | NoPair => scanstring r2 (uni :: acc)
      | Pair uni2 r4 => scanstring r4 (join_surrogates uni uni2 :: acc)
      | BadEscape => None
      end
    else scanstring r2 (uni :: acc).
Proof.
  intros H.
  change (scanstring (92 :: 117 :: h1 :: h2 :: h3 :: h4 :: r2) acc) with
    (match decode_uXXXX h1 h2 h3 h4 with
     | None => None
     | Some uni =>
         if is_high_surrogate uni then
           match r2 with
           | b :: u :: r3 =>
               if (b =? 92) && (u =? 117) then
                 match r3 with
                 | l1 :: l2 :: l3 :: l4 :: r4 =>
                     match decode_uXXXX l1 l2 l3 l4 with
                     | None => None
                     | Some uni2 =>
                         if is_low_surrogate uni2
                         then scanstring r4 (join_surrogates uni uni2 :: acc)
                         else scanstring r2 (uni :: acc)
                     end
                 | _ => None
                 end
               else scanstring r2 (uni :: acc)
           | _ => scanstring r2 (uni :: acc)
           end
         else scanstring r2 (uni :: acc)
     end).
  rewrite H. destruct (is_high_surrogate uni); [| reflexivity].
  unfold low_follows.
  destruct r2 as [| b [| u r3]]; try reflexivity.
  destruct ((b =? 92) && (u =? 117)); [| reflexivity].
  destruct r3 as [| l1 [| l2 [| l3 [| l4 r4]]]]; try reflexivity.
  destruct (decode_uXXXX l1 l2 l3 l4) as [uni2 |]; [| reflexivity].
  destruct (is_low_surrogate uni2); reflexivity.
Qed.

Lemma scanstring_quote r acc : scanstring (34 :: r) acc = Some (rev acc, r).
Proof. reflexivity. Qed.

Lemma scanstring_plain c r acc :
  c <> 34 -> c <> 92 -> 32 <= c -> scanstring (c :: r) acc = scanstring r (c :: acc).
Proof.
  intros H1 H2 H3. cbn [scanstring].
  rewrite (proj2 (N.eqb_neq c 34) H1), (proj2 (N.eqb_neq c 92) H2).
  now rewrite (proj2 (N.ltb_ge c 32) H3).
Qed.

Lemma scanstring_short e c r acc :
  BACKSLASH e = Some c -> e <> 117 ->
  scanstring (92 :: e :: r) acc = scanstring r (c :: acc).
Proof.
  intros H1 H2. cbn [scanstring].
  change (92 =? 34) with false. change (92 =? 92) with true. cbv iota.
  now rewrite (proj2 (N.eqb_neq e 117) H2), H1.
Qed.


Lemma escape_char_shape c : c < 0x110000 -> escape_shape c (escape_char c).
Proof.
  intros Hc. unfold escape_char.
  destruct (N.eqb_spec c 92) as [-> | N92]. { now apply EsShort. }
  destruct (N.eqb_spec c 34) as [-> | N34]. { now apply EsShort. }
  destruct (N.eqb_spec c 8) as [-> | N8]. { now apply EsShort. }
  destruct (N.eqb_spec c 12) as [-> | N12]. { now apply EsShort. }
  destruct (N.eqb_spec c 10) as [-> | N10]. { now apply EsShort. }
  destruct (N.eqb_spec c 13) as [-> | N13]. { now apply EsShort. }
  destruct (N.eqb_spec c 9) as [-> | N9]. { now apply EsShort. }
  destruct (N.leb_spec 32 c) as [L | L]; cbn [andb].
  - destruct (N.leb_spec c 126) as [U | U]. { now apply EsPlain. }
    destruct (N.ltb_spec c 0x10000) as [B | B]. { now apply EsBmp. }
    rewrite high_half, low_half by lia. apply EsAstral; lia.
  - destruct (N.ltb_spec c 0x10000) as [B | B]. { now apply EsBmp. }
    lia.
Qed.


Lemma low_follows_escape_body s rest :
  is_str s = true -> head_not_low s = true ->
  low_follows (escape_body s ++ 34 :: rest) = NoPair.
Proof.
  destruct s as [| d s]; intros Hs Hd.
  - cbn. now destruct rest.
  - cbn [escape_body flat_map]. rewrite <- app_assoc.
    cbn [is_str forallb] in Hs. apply andb_prop in Hs as [Hd' _].
    apply N.ltb_lt in Hd'. cbn [head_not_low] in Hd.
    apply negb_true_iff in Hd.
    set (X := flat_map escape_char s ++ 34 :: rest).
    destruct (escape_char_shape d Hd') as [e He Ne | N34 N92 L | B | n -> Hn].
    + cbn [app low_follows]. change (92 =? 92) with true.
      now rewrite (proj2 (N.eqb_neq e 117) Ne).
    + cbn [app low_follows]. destruct X; [reflexivity |].
      now rewrite (proj2 (N.eqb_neq d 92) N92).
    + unfold u_escape, hex4. cbn [app low_follows].
      change ((92 =? 92) && (117 =? 117)) with true. cbv iota.
      now rewrite decode_hex4, Hd.
    + unfold u_escape at 1. unfold hex4 at 1. cbn [app low_follows].
      change ((92 =? 92) && (117 =? 117)) with true. cbv iota.
      assert (n / 1024 < 1024) by lia.
      rewrite decode_hex4 by lia.
      replace (is_low_surrogate (0xd800 + n / 1024)) with false; [reflexivity |].
      symmetry. unfold is_low_surrogate. apply andb_false_iff. left.
      apply N.leb_gt. lia.
Qed.

Lemma no_surrogate_pair_cons c s :
  no_surrogate_pair (c :: s) = true ->
  (is_high_surrogate c = true -> head_not_low s = true) /\
  no_surrogate_pair s = true.
Proof.
  cbn [no_surrogate_pair]. intros H. apply andb_prop in H as [H1 H2].
  split; [| exact H2]. intros Hc. destruct s as [| d s]; [reflexivity |].
  cbn. rewrite Hc in H1. exact H1.
Qed.

Lemma scanstring_escape_body s : forall rest acc,
  is_str s = true -> no_surrogate_pair s = true ->
  scanstring (escape_body s ++ 34 :: rest) acc = Some (rev acc ++ s, rest).
Proof.
  induction s as [| c s IH]; intros rest acc Hs Hp.
  - cbn [escape_body flat_map app]. now rewrite scanstring_quote, app_nil_r.
  - cbn [escape_body flat_map]. rewrite <- app_assoc.
    fold (escape_body s).
    pose proof Hs as Hs0.
    cbn [is_str forallb] in Hs. apply andb_prop in Hs as [Hc Hs].
    apply N.ltb_lt in Hc. fold (is_str s) in Hs.
    apply no_surrogate_pair_cons in Hp as [Hh Hp].
    assert (Hrev : forall x, rev (x :: acc) ++ s = rev acc ++ x :: s).
    { intros x. cbn [rev]. now rewrite <- app_assoc. }
    destruct (escape_char_shape c Hc) as [e He Ne | N34 N92 L | B | n -> Hn].
    + cbn [app]. rewrite (scanstring_short e c) by assumption.
      now rewrite IH, Hrev.
    + cbn [app]. rewrite scanstring_plain by assumption.
      now rewrite IH, Hrev.
    + unfold u_escape, hex4. cbn [app].
      rewrite (scanstring_u _ _ _ _ _ _ c) by now apply decode_hex4.
      destruct (is_high_surrogate c) eqn:Hhi.
      * rewrite low_follows_escape_body by auto. now rewrite IH, Hrev.
      * now rewrite IH, Hrev.
    + assert (n / 1024 < 1024) by lia. assert (n mod 1024 < 1024) by lia.
      unfold u_escape at 1. unfold hex4 at 1. cbn [app].
      rewrite (scanstring_u _ _ _ _ _ _ (0xd800 + n / 1024))
        by (apply decode_hex4; lia).
      replace (is_high_surrogate (0xd800 + n / 1024)) with true.
      2:{ symmetry. unfold is_high_surrogate. apply andb_true_iff.
          split; apply N.leb_le; lia. }
      unfold u_escape, hex4. cbn [app low_follows].
      change ((92 =? 92) && (117 =? 117)) with true. cbv iota.
      rewrite decode_hex4 by lia.
      replace (is_low_surrogate (0xdc00 + n mod 1024)) with true.
      2:{ symmetry. unfold is_low_surrogate. apply andb_true_iff.
          split; apply N.leb_le; lia. }
      rewrite join_halves by exact Hn. now rewrite IH, Hrev.
Qed.



Lemma skip_ws_stop c r : is_ws c = false -> skip_ws (c :: r) = c :: r.
Proof. intros H. cbn [skip_ws]. now rewrite H. Qed.

Lemma scan_once_string fuel s rest :
  is_str s = true -> no_surrogate_pair s = true ->
  scan_once (S fuel) (34 :: escape_body s ++ 34 :: rest) = Some (JStr s, rest).
Proof.
  intros Hs Hp. cbn [scan_once]. change (34 =? 34) with true. cbv iota.
  now rewrite scanstring_escape_body.
Qed.



(* ================================================================= *)
(** ** The decoder does not depend on its fuel *)

Section Fuel.

Local Open Scope nat_scope.

Lemma skip_ws_length s : List.length (skip_ws s) <= List.length s.
Proof.
  induction s as [| c r IH]; [reflexivity |].
  cbn [skip_ws]. destruct (is_ws c); cbn [List.length]; lia.
Qed.

Lemma skip_ws_cons_length s c r :
  skip_ws s = c :: r -> List.length r < List.length s.
Proof.
  intros H. pose proof (skip_ws_length s) as L. rewrite H in L.
  cbn [List.length] in L. lia.
Qed.

Lemma scanstring_length n : forall s acc x r,
  List.length s <= n -> scanstring s acc = Some (x, r) ->
  List.length r < List.length s.
Proof.
  induction n as [| n IH]; intros s acc x r Hn H.
  - destruct s; [discriminate | cbn [List.length] in Hn; lia].
  - destruct s as [| c s]; [discriminate |].
    cbn [List.length] in Hn. cbn [scanstring] in H.
    destruct (N.eqb c 34).
    { injection H as _ <-. cbn [List.length]. lia. }
    destruct (N.eqb c 92).
    2:{ destruct (N.ltb c 32); [discriminate |].
        apply IH in H; cbn [List.length]; lia. }
    destruct s as [| esc r1]; [discriminate |]. cbn [List.length] in *.
    destruct (N.eqb esc 117).
    2:{ destruct (BACKSLASH esc); [| discriminate].
        apply IH in H; cbn [List.length]; lia. }
    destruct r1 as [| h1 [| h2 [| h3 [| h4 r2]]]]; try discriminate.
    cbn [List.length] in *.
    destruct (decode_uXXXX h1 h2 h3 h4) as [uni |]; [| discriminate].
    destruct (is_high_surrogate uni).
    2:{ apply IH in H; lia. }
    destruct r2 as [| b [| u r3]];
      try (apply IH in H; cbn [List.length] in *; lia).
    destruct (N.eqb b 92 && N.eqb u 117).
    2:{ apply IH in H; cbn [List.length] in *; lia. }
    destruct r3 as [| l1 [| l2 [| l3 [| l4 r4]]]]; try discriminate.
    destruct (decode_uXXXX l1 l2 l3 l4) as [uni2 |]; [| discriminate].
    destruct (is_low_surrogate uni2);
      apply IH in H; cbn [List.length] in *; lia.
Qed.

Lemma span_digits_length s :
  List.length (snd (span_digits s)) <= List.length s.
Proof.
  induction s as [| c r IH]; [reflexivity |].
  cbn [span_digits]. destruct (is_digit c); [| reflexivity].
  destruct (span_digits r) as [ds r']. cbn [snd List.length] in *. lia.
Qed.

Lemma match_frac_length s :
  List.length (snd (match_frac s)) <= List.length s.
Proof.
  destruct s as [| c r]; [reflexivity |]. cbn [match_frac].
  destruct (N.eqb c 46); [| reflexivity].
  pose proof (span_digits_length r) as L.
  destruct (span_digits r) as [[| d ds] r']; cbn [snd List.length] in *; lia.
Qed.

Lemma match_exp_length s :
  List.length (snd (match_exp s)) <= List.length s.
Proof.
  destruct s as [| e r]; [reflexivity |]. cbn [match_exp].
  destruct (N.eqb e 101 || N.eqb e 69); [| reflexivity].
  destruct r as [| sg r1]; [reflexivity |].
  destruct (N.eqb sg 45 || N.eqb sg 43).
  - pose proof (span_digits_length r1) as L.
    destruct (span_digits r1) as [[| d ds] r']; cbn [snd List.length] in *; lia.
  - pose proof (span_digits_length (sg :: r1)) as L.
    destruct (span_digits (sg :: r1)) as [[| d ds] r'];
      cbn [snd List.length] in *; lia.
Qed.

Lemma match_number_length s v r :
  match_number s = Some (v, r) -> List.length r <= List.length s.
Proof.
  unfold match_number.
  set (start := match s with
                | c :: r0 => if N.eqb c 45 then (true, r0) else (false, s)
                | [] => (false, s)
                end).
  assert (Hstart : List.length (snd start) <= List.length s).
  { subst start. destruct s as [| c r0]; [reflexivity |].
    destruct (N.eqb c 45); cbn [snd List.length]; lia. }
  destruct start as [neg s1]. cbn [snd] in Hstart.
  assert (Hint : forall ip s2, match_intpart s1 = Some (ip, s2) ->
                               List.length s2 <= List.length s1).
  { intros ip s2. unfold match_intpart. destruct s1 as [| c r0]; [discriminate |].
    destruct (N.eqb c 48).
    - intros [= _ <-]. cbn [List.length]. lia.
    - destruct (is_digit c); [| discriminate].
      pose proof (span_digits_length r0) as L.
      destruct (span_digits r0) as [ds r']. intros [= _ <-].
      cbn [snd List.length] in *. lia. }
  destruct (match_intpart s1) as [[ip s2] |]; [| discriminate].
  specialize (Hint ip s2 eq_refl).
  pose proof (match_frac_length s2) as Hf.
  destruct (match_frac s2) as [frac s3]. cbn [snd] in Hf.
  pose proof (match_exp_length s3) as He.
  destruct (match_exp s3) as [ex s4]. cbn [snd] in He.
  destruct frac, ex; intros [= _ <-]; lia.
Qed.

Lemma keyword_length kw v s v' r :
  keyword kw v s = Some (v', r) -> List.length r <= List.length s.
Proof.
  unfold keyword. destruct (startswith s (lit kw)); [| discriminate].
  intros [= _ <-]. rewrite length_skipn. lia.
Qed.

Lemma scan_constant_length s v r :
  scan_constant s = Some (v, r) -> List.length r <= List.length s.
Proof.
  unfold scan_constant. destruct s as [| c s']; [discriminate |].
  destruct (N.eqb c 110); [apply keyword_length |].
  destruct (N.eqb c 116); [apply keyword_length |].
  destruct (N.eqb c 102); [apply keyword_length |].
  destruct (match_number (c :: s')) as [[v0 r0] |] eqn:E.
  - intros [= <- <-]. now apply match_number_length in E.
  - destruct (N.eqb c 78); [apply keyword_length |].
    destruct (N.eqb c 73); [apply keyword_length |].
    destruct (N.eqb c 45); [apply keyword_length | discriminate].
Qed.

(** The three scanners never return more text than they were given. *)
Definition consumes (scan : str -> option (json * str)) : Prop :=
  forall s v r, scan s = Some (v, r) -> List.length r <= List.length s.

Lemma scanners_consume fuel :
  consumes (scan_once fuel) /\
  (forall values, consumes (fun s => JSONArray_loop fuel s values)) /\
  (forall pairs, consumes (fun s => JSONObject_loop fuel s pairs)).
Proof.
  induction fuel as [| fuel (IHs & IHa & IHo)].
  { repeat split; repeat intro; discriminate. }
  split; [| split].
  - intros s v r. cbn [scan_once]. destruct s as [| c s']; [discriminate |].
    cbn [List.length].
    destruct (N.eqb c 34).
    { destruct (scanstring s' []) as [[x r'] |] eqn:E; [| discriminate].
      intros [= _ <-]. apply (scanstring_length _ _ _ _ _ (le_n _)) in E. lia. }
    destruct (N.eqb c 123).
    { destruct (skip_ws s') as [| c1 r1] eqn:E; [discriminate |].
      apply skip_ws_cons_length in E.
      destruct (N.eqb c1 125); [intros [= _ <-]; lia |].
      destruct (N.eqb c1 34); [| discriminate].
      intros H. apply IHo in H. lia. }
    destruct (N.eqb c 91).
    { destruct (skip_ws s') as [| c1 r1] eqn:E; [discriminate |].
      pose proof (skip_ws_length s') as L. rewrite E in L.
      destruct (N.eqb c1 93); [intros [= _ <-]; cbn [List.length] in L; lia |].
      intros H. apply IHa in H. lia. }
    intros H. apply scan_constant_length in H. cbn [List.length] in H. lia.
  - intros values s v r. cbn [JSONArray_loop].
    destruct (scan_once fuel s) as [[value r0] |] eqn:E; [| discriminate].
    apply IHs in E.
    destruct (skip_ws r0) as [| c r1] eqn:E1; [discriminate |].
    apply skip_ws_cons_length in E1.
    destruct (N.eqb c 93); [intros [= _ <-]; lia |].
    destruct (N.eqb c 44); [| discriminate].
    intros H. apply IHa in H. pose proof (skip_ws_length r1) as L1. lia.
  - intros pairs s v r. cbn [JSONObject_loop].
    destruct (scanstring s []) as [[key r0] |] eqn:E; [| discriminate].
    apply (scanstring_length _ _ _ _ _ (le_n _)) in E.
    destruct (skip_ws r0) as [| c r1] eqn:E1; [discriminate |].
    apply skip_ws_cons_length in E1.
    destruct (N.eqb c 58); [| discriminate].
    destruct (scan_once fuel (skip_ws r1)) as [[value r2] |] eqn:E2;
      [| discriminate].
    apply IHs in E2. pose proof (skip_ws_length r1) as L1.
    destruct (skip_ws r2) as [| c2 r3] eqn:E3; [discriminate |].
    apply skip_ws_cons_length in E3.
    destruct (N.eqb c2 125); [intros [= _ <-]; lia |].
    destruct (N.eqb c2 44); [| discriminate].
    destruct (skip_ws r3) as [| q r4] eqn:E4; [discriminate |].
    apply skip_ws_cons_length in E4.
    destruct (N.eqb q 34); [| discriminate].
    intros H. apply IHo in H. lia.
Qed.

(** Once the fuel exceeds twice the length of the text, more fuel gives
    the same result. *)
Lemma scanners_fuel fuel :
  (forall s fuel', 2 * List.length s < fuel -> fuel <= fuel' ->
     scan_once fuel' s = scan_once fuel s) /\
  (forall s values fuel', 2 * List.length s + 1 < fuel -> fuel <= fuel' ->
     JSONArray_loop fuel' s values = JSONArray_loop fuel s values) /\
  (forall s pairs fuel', 2 * List.length s + 1 < fuel -> fuel <= fuel' ->
     JSONObject_loop fuel' s pairs = JSONObject_loop fuel s pairs).
Proof.
  induction fuel as [| fuel (IHs & IHa & IHo)].
  { repeat split; intros; lia. }
  destruct (scanners_consume fuel) as (Cs & _ & _).
  split; [| split].
  - intros s [| fuel'] Hlen Hle; [lia |]. cbn [scan_once].
    destruct s as [| c s']; [reflexivity |]. cbn [List.length] in Hlen.
    destruct (N.eqb c 34); [reflexivity |].
    destruct (N.eqb c 123).
    { destruct (skip_ws s') as [| c1 r1] eqn:E; [reflexivity |].
      apply skip_ws_cons_length in E.
      destruct (N.eqb c1 125); [reflexivity |].
      destruct (N.eqb c1 34); [| reflexivity].
      apply IHo; lia. }
    destruct (N.eqb c 91); [| reflexivity].
    destruct (skip_ws s') as [| c1 r1] eqn:E; [reflexivity |].
    pose proof (skip_ws_length s') as L. rewrite E in L.
    destruct (N.eqb c1 93); [reflexivity |].
    apply IHa; lia.
  - intros s values [| fuel'] Hlen Hle; [lia |]. cbn [JSONArray_loop].
    rewrite (IHs s fuel') by lia.
    destruct (scan_once fuel s) as [[value r0] |] eqn:E; [| reflexivity].
    apply Cs in E.
    destruct (skip_ws r0) as [| c r1] eqn:E1; [reflexivity |].
    apply skip_ws_cons_length in E1.
    destruct (N.eqb c 93); [reflexivity |].
    destruct (N.eqb c 44); [| reflexivity].
    pose proof (skip_ws_length r1) as L1. apply IHa; lia.
  - intros s pairs [| fuel'] Hlen Hle; [lia |]. cbn [JSONObject_loop].
    destruct (scanstring s []) as [[key r0] |] eqn:E; [| reflexivity].
    apply (scanstring_length _ _ _ _ _ (le_n _)) in E.
    destruct (skip_ws r0) as [| c r1] eqn:E1; [reflexivity |].
    apply skip_ws_cons_length in E1.
    destruct (N.eqb c 58); [| reflexivity].
    pose proof (skip_ws_length r1) as L1.
    rewrite (IHs (skip_ws r1) fuel') by lia.
    destruct (scan_once fuel (skip_ws r1)) as [[value r2] |] eqn:E2;
      [| reflexivity].
    apply Cs in E2.
    destruct (skip_ws r2) as [| c2 r3] eqn:E3; [reflexivity |].
    apply skip_ws_cons_length in E3.
    destruct (N.eqb c2 125); [reflexivity |].
    destruct (N.eqb c2 44); [| reflexivity].
    destruct (skip_ws r3) as [| q r4] eqn:E4; [reflexivity |].
    apply skip_ws_cons_length in E4.
    destruct (N.eqb q 34); [| reflexivity].
    apply IHo; lia.
Qed.

(** [loads] is what any larger amount of fuel computes. *)
Lemma loads_fuel s fuel :
  S (2 * List.length s) <= fuel -> loads_with fuel s = loads s.
Proof.
  intros H. unfold loads, loads_with.
  pose proof (skip_ws_length s) as L.
  now rewrite (proj1 (scanners_fuel (S (2 * List.length s))) (skip_ws s) fuel)
    by lia.
Qed.

End Fuel.

(* ================================================================= *)
(** ** The envelope: [to_json] and [from_json] *)

Section Envelope.

Import MessageObject.

Lemma to_json_text a b c :
  to_json (__init__ (JStr a) (JStr b) (JStr c)) =
  123 :: member_text (lit "source") a
           (44 :: 32 :: member_text (lit "destination") b
                    (44 :: 32 :: member_text (lit "content") c [125])).
Proof.
  unfold to_json, member_text.
  cbn [dumps map fst snd join_items source destination content].
  unfold encode_basestring_ascii.
  change (lit ": ") with [58; 32]. change (lit ", ") with [44; 32].
  cbn [app]. repeat rewrite <- app_assoc. cbn [app].
  repeat (f_equal; try rewrite <- app_assoc; cbn [app]).
Qed.

Lemma JSONObject_loop_member fuel k v rest pairs :
  valid_field k = true -> valid_field v = true ->
  JSONObject_loop (S (S fuel))
    (escape_body k ++ 34 :: 58 :: 32 :: 34 :: escape_body v ++ 34 :: rest) pairs
  = after_member (S fuel) (pairs ++ [(k, JStr v)]) rest.
Proof.
  intros Hk Hv. apply andb_prop in Hk as [Hk Hk'], Hv as [Hv Hv'].
  cbn [JSONObject_loop].
  rewrite scanstring_escape_body by assumption. cbn [rev app].
  rewrite skip_ws_stop by reflexivity. change (58 =? 58) with true. cbv iota.
  change (skip_ws (32 :: 34 :: escape_body v ++ 34 :: rest))
    with (34 :: escape_body v ++ 34 :: rest).
  rewrite scan_once_string by assumption. reflexivity.
Qed.

Ltac next_member :=
  unfold after_member at 1; rewrite skip_ws_stop by reflexivity;
  change (44 =? 125) with false; change (44 =? 44) with true; cbv iota;
  match goal with
  | |- context [skip_ws (32 :: 34 :: ?x)] =>
      change (skip_ws (32 :: 34 :: x)) with (34 :: x)
  end;
  change (34 =? 34) with true; cbv iota.

Lemma scan_once_envelope fuel a b c :
  valid_field a = true -> valid_field b = true -> valid_field c = true ->
  scan_once (S (S (S (S (S fuel)))))
    (to_json (__init__ (JStr a) (JStr b) (JStr c)))
  = Some (as_dictionary (__init__ (JStr a) (JStr b) (JStr c)), []).
Proof.
  intros Ha Hb Hc.
  rewrite to_json_text. unfold member_text.
  cbn [scan_once]. change (123 =? 34) with false. change (123 =? 123) with true.
  cbv iota. rewrite skip_ws_stop by reflexivity.
  change (34 =? 125) with false. change (34 =? 34) with true. cbv iota.
  rewrite JSONObject_loop_member by (assumption || reflexivity). next_member.
  rewrite JSONObject_loop_member by (assumption || reflexivity). next_member.
  rewrite JSONObject_loop_member by (assumption || reflexivity).
  reflexivity.
Qed.

Lemma loads_to_json a b c :
  valid_field a = true -> valid_field b = true -> valid_field c = true ->
  loads (to_json (__init__ (JStr a) (JStr b) (JStr c)))
  = Some (as_dictionary (__init__ (JStr a) (JStr b) (JStr c))).
Proof.
  intros Ha Hb Hc. unfold loads, loads_with.
  assert (Hlen : (4 <= List.length (to_json (__init__ (JStr a) (JStr b) (JStr c))))%nat).
  { rewrite to_json_text. unfold member_text. cbn [List.length].
    rewrite length_app. cbn [List.length]. lia. }
  assert (Hws : skip_ws (to_json (__init__ (JStr a) (JStr b) (JStr c)))
                = to_json (__init__ (JStr a) (JStr b) (JStr c))).
  { rewrite to_json_text. now apply skip_ws_stop. }
  rewrite Hws.
  destruct (List.length (to_json (__init__ (JStr a) (JStr b) (JStr c))))
    as [| [| [| [| n]]]]; try lia.
  cbn [Nat.mul Nat.add]. now rewrite scan_once_envelope.
Qed.

Lemma loads_dumps_str s :
  valid_field s = true -> loads (dumps (JStr s)) = Some (JStr s).
Proof.
  intros Hs. apply andb_prop in Hs as [Hs Hp].
  unfold loads, loads_with. cbn [dumps]. unfold encode_basestring_ascii.
  rewrite skip_ws_stop by reflexivity.
  now rewrite scan_once_string.
Qed.

(** C1, as amended: an envelope whose three fields are strings in which no
    high surrogate is immediately followed by a low surrogate is returned
    unchanged by [from_json (to_json e)]. *)
Theorem from_json_to_json (a b c : str) :
  valid_field a = true -> valid_field b = true -> valid_field c = true ->
  from_json (to_json (__init__ (JStr a) (JStr b) (JStr c)))
  = Ok (__init__ (JStr a) (JStr b) (JStr c)).
Proof.
  intros Ha Hb Hc. unfold from_json.
  rewrite loads_to_json by assumption. reflexivity.
Qed.

Lemma from_json_to_json_witness :
  from_json (to_json (__init__ (JStr (lit "A")) (JStr [0x1F600; 10; 0xd83d])
                        (JStr (lit "h\i"))))
  = Ok (__init__ (JStr (lit "A")) (JStr [0x1F600; 10; 0xd83d]) (JStr (lit "h\i"))).
Proof.
  apply (from_json_to_json (lit "A") [0x1F600; 10; 0xd83d] (lit "h\i"));
    reflexivity.
Defined.

(** C1 as stated fails: a high surrogate followed by a low surrogate is
    written as two escapes, which [json.loads] reads back as one
    character. *)
Lemma from_json_to_json_surrogate_pair :
  from_json (to_json (__init__ (JStr [0xd83d; 0xde00]) (JStr []) (JStr [])))
  = Ok (__init__ (JStr [0x1F600]) (JStr []) (JStr []))
  /\ from_json (to_json (__init__ (JStr [0xd83d; 0xde00]) (JStr []) (JStr [])))
     <> Ok (__init__ (JStr [0xd83d; 0xde00]) (JStr []) (JStr [])).
Proof.
  assert (H : from_json (to_json (__init__ (JStr [0xd83d; 0xde00]) (JStr []) (JStr [])))
              = Ok (__init__ (JStr [0x1F600]) (JStr []) (JStr [])))
    by (vm_compute; reflexivity).
  split; [exact H |]. rewrite H. discriminate.
Qed.

Lemma py_in_cases v :
  (forall k, py_in k v = Raise TypeError /\
             match v with JObj _ | JArr _ | JStr _ => False | _ => True end) \/
  (forall k, exists b, py_in k v = Ok b) /\
  match v with JObj _ | JArr _ | JStr _ => True | _ => False end.
Proof. destruct v; cbn [py_in]; eauto. Qed.

Ltac three_keys v :=
  let E1 := fresh "E" in
  let E2 := fresh "E" in
  let E3 := fresh "E" in
  let Hno := fresh "Hno" in
  let Hyes := fresh "Hyes" in
  let Hkind := fresh "Hkind" in
  destruct (py_in_cases v) as [Hno | [Hyes Hkind]];
  [ pose proof (Hno (lit "content")) as [E1 Hkind];
    pose proof (Hno (lit "source")) as [E2 _];
    pose proof (Hno (lit "destination")) as [E3 _]
  | destruct (Hyes (lit "content")) as [[] E1];
    destruct (Hyes (lit "source")) as [[] E2];
    destruct (Hyes (lit "destination")) as [[] E3] ];
  rewrite ?E1, ?E2, ?E3.

Lemma validate_first_absent v k :
  first_absent v = Some k -> validate validate_set v = Raise (missing_item k).
Proof.
  unfold first_absent, validate_set. cbn [find validate].
  three_keys v; first [discriminate | intros [= <-]; reflexivity].
Qed.

Lemma validate_none_absent v :
  first_absent v = None ->
  validate validate_set v =
    match v with JObj _ | JArr _ | JStr _ => Ok tt | _ => Raise TypeError end.
Proof.
  unfold first_absent, validate_set. cbn [find validate].
  three_keys v; try discriminate; intros _; destruct v; tauto.
Qed.

(** C2, as amended: [from_json] raises [JSONDecodeError] when the text is
    not valid JSON; otherwise it raises [KeyError] for the first of
    [content], [source], [destination] that is not [in] the decoded value
    (a missing key of an object, but also a missing element of an array or
    a missing substring of a string); it succeeds when the value is an
    object holding all three keys; for any other decoded value it raises
    [TypeError]. *)
Theorem from_json_outcome (s : str) :
  (loads s = None -> from_json s = Raise JSONDecodeError) /\
  (forall v k, loads s = Some v -> first_absent v = Some k ->
     from_json s = Raise (missing_item k)) /\
  (forall d, loads s = Some (JObj d) -> first_absent (JObj d) = None ->
     exists a b c,
       dict_get (lit "source") d = Some a /\
       dict_get (lit "destination") d = Some b /\
       dict_get (lit "content") d = Some c /\
       from_json s = Ok (__init__ a b c)) /\
  (forall v, loads s = Some v -> first_absent v = None ->
     (forall d, v <> JObj d) -> from_json s = Raise TypeError).
Proof.
  unfold from_json. repeat split.
  - intros ->. reflexivity.
  - intros v k -> Hk. now rewrite (validate_first_absent v k Hk).
  - intros d -> Hd. rewrite (validate_none_absent _ Hd).
    revert Hd. unfold first_absent, validate_set. cbn [find py_in py_getitem].
    unfold dict_contains.
    destruct (dict_get (lit "content") d) as [c |]; [| discriminate].
    destruct (dict_get (lit "source") d) as [a |]; [| discriminate].
    destruct (dict_get (lit "destination") d) as [b |]; [| discriminate].
    intros _. now exists a, b, c.
  - intros v -> Hv Hobj. rewrite (validate_none_absent _ Hv).
    destruct v; try reflexivity. now elim (Hobj members).
Qed.

Lemma from_json_outcome_witness :
  from_json (json_text "{'source': 'A', 'content': 'hi'}")
  = Raise (missing_item (lit "destination")).
Proof.
  apply (proj1 (proj2 (from_json_outcome
                         (json_text "{'source': 'A', 'content': 'hi'}")))
           (JObj [(lit "source", JStr (lit "A")); (lit "content", JStr (lit "hi"))]));
    reflexivity.
Defined.

(** C2 as stated fails: the text [[]] decodes to an array, not an object,
    and [from_json] raises the [KeyError] of a missing field rather than
    a decoding error. *)
Lemma from_json_array_is_missing_field :
  loads (lit "[]") = Some (JArr []) /\
  from_json (lit "[]") = Raise (missing_item (lit "content")) /\
  from_json (lit "[]") <> Raise JSONDecodeError.
Proof.
  assert (H : from_json (lit "[]") = Raise (missing_item (lit "content")))
    by (vm_compute; reflexivity).
  split; [vm_compute; reflexivity |].
  split; [exact H |]. rewrite H. discriminate.
Qed.

(** C10: when the text decodes to an object that holds the three required
    keys, whatever else it holds, [from_json] succeeds and the envelope is
    made of the values of those three keys alone; its serialization is the
    object with exactly these three members. *)
Theorem from_json_extra_keys (s : str) (d : dict) (a b c : json) :
  loads s = Some (JObj d) ->
  dict_get (lit "source") d = Some a ->
  dict_get (lit "destination") d = Some b ->
  dict_get (lit "content") d = Some c ->
  from_json s = Ok (__init__ a b c) /\
  to_json (__init__ a b c)
  = dumps (JObj [(lit "source", a); (lit "destination", b); (lit "content", c)]).
Proof.
  intros Hs Ha Hb Hc. split; [| reflexivity].
  unfold from_json. rewrite Hs. unfold validate_set.
  cbn [validate py_in py_getitem]. unfold dict_contains.
  now rewrite Ha, Hb, Hc.
Qed.

Lemma from_json_extra_keys_witness :
  from_json (json_text
    "{'id': 7, 'source': 'A', 'destination': 'B', 'tags': [true, null], 'content': 'hi'}")
  = Ok (__init__ (JStr (lit "A")) (JStr (lit "B")) (JStr (lit "hi"))).
Proof.
  apply (from_json_extra_keys
           (json_text
    "{'id': 7, 'source': 'A', 'destination': 'B', 'tags': [true, null], 'content': 'hi'}")
           [(lit "id", JInt 7); (lit "source", JStr (lit "A"));
            (lit "destination", JStr (lit "B"));
            (lit "tags", JArr [JBool true; JNull]);
            (lit "content", JStr (lit "hi"))]);
    reflexivity.
Defined.

End Envelope.

(* ================================================================= *)
(** ** The transport session *)

Section Transport.

Import NamedPipeInterface.

Ltac run_m :=
  unfold Eff.bind, Eff.ret, Eff.get, Eff.emit, Eff.raise, Eff.modify,
    Eff.lift, Eff.try_except, OperationalError.

Lemma is_server_truthy self : is_server self = true -> truthy (mode self) = true.
Proof.
  unfold is_server. destruct (mode self) as [[| c m] |]; try discriminate.
  reflexivity.
Qed.

Lemma is_server_bound self h :
  is_server self = true -> pipe_handle self = Some h -> unbound self = false.
Proof.
  intros Hs Hh. unfold unbound. now rewrite Hh, (is_server_truthy _ Hs).
Qed.

(** C3: in SERVER mode, [send] of an envelope whose destination is
    ["NORELAY"] writes to no peer and returns normally; it only prints
    the notice. *)
Theorem send_NORELAY (self : t) (h : wpipe.handle) (m : MessageObject.t) :
  is_server self = true ->
  pipe_handle self = Some h ->
  MessageObject.destination m = JStr (lit "NORELAY") ->
  send m self
  = ([Print (lit "[+] NORELAY flag set in message: " ++ MessageObject.to_json m)],
     self, Ok tt)
  /\ writes (events (send m self)) = [].
Proof.
  intros Hs Hh Hd.
  assert (E : send m self
              = ([Print (lit "[+] NORELAY flag set in message: "
                           ++ MessageObject.to_json m)], self, Ok tt)).
  { unfold send. run_m. rewrite (is_server_bound _ _ Hs Hh), Hs, Hd.
    reflexivity. }
  split; [exact E |]. now rewrite E.
Qed.

Lemma send_NORELAY_witness :
  writes (events (send Main.acknowledgement_message
                    (Sample.server_session Sample.three_peers))) = [].
Proof.
  apply (send_NORELAY (Sample.server_session Sample.three_peers)
           (wpipe.Server Sample.three_peers) Main.acknowledgement_message);
    reflexivity.
Defined.

Lemma for_each_write_all data clients self :
  (forall c, In c clients -> wpipe.write_ok c data = true) ->
  for_each clients (client_write data) self
  = (map (write_event data) clients, self, Ok tt).
Proof.
  induction clients as [| c cs IH]; intros Hall; [reflexivity |].
  cbn [for_each map]. unfold Eff.bind at 1. unfold client_write at 1.
  rewrite (Hall c) by now left. unfold Eff.emit.
  rewrite IH by (intros x Hx; apply Hall; now right). reflexivity.
Qed.

Lemma for_each_write_abort data good bad rest self :
  (forall c, In c good -> wpipe.write_ok c data = true) ->
  wpipe.write_ok bad data = false ->
  for_each (good ++ bad :: rest) (client_write data) self
  = (map (write_event data) good, self, Raise PipeError).
Proof.
  induction good as [| c cs IH]; intros Hall Hbad.
  - cbn [app for_each map]. unfold Eff.bind, client_write. rewrite Hbad.
    reflexivity.
  - cbn [app for_each map]. unfold Eff.bind at 1. unfold client_write at 1.
    rewrite (Hall c) by now left. unfold Eff.emit.
    rewrite IH by (try assumption; intros x Hx; apply Hall; now right).
    reflexivity.
Qed.

Lemma recv_client_spec client returnvalue self :
  recv_client client returnvalue self
  = (read_log client, self, Ok (returnvalue ++ delivered client)).
Proof.
  unfold recv_client, read_log, delivered, peer_outcome. run_m.
  destruct (wpipe.canread client) as [[] | e]; cbn.
  - destruct (wpipe.read client) as [text | e]; cbn.
    + destruct (MessageObject.from_json text) as [m | e]; cbn;
        now rewrite ?app_nil_r.
    + now rewrite app_nil_r.
  - now rewrite app_nil_r.
  - now rewrite app_nil_r.
Qed.

Lemma recv_clients_spec clients : forall returnvalue self,
  recv_clients clients returnvalue self
  = (flat_map read_log clients, self,
     Ok (returnvalue ++ flat_map delivered clients)).
Proof.
  induction clients as [| c cs IH]; intros rv self.
  - cbn. now rewrite app_nil_r.
  - cbn [recv_clients flat_map]. unfold Eff.bind.
    rewrite recv_client_spec, IH. now rewrite <- app_assoc.
Qed.

Lemma recv_server self clients :
  is_server self = true ->
  pipe_handle self = Some (wpipe.Server clients) ->
  recv self
  = (WaitForData :: flat_map read_log clients, self,
     Ok (flat_map delivered clients)).
Proof.
  intros Hs Hh. unfold recv. unfold Eff.bind at 1. unfold Eff.get.
  rewrite (is_server_bound _ _ Hs Hh), Hs, Hh.
  unfold Eff.bind, Eff.emit. now rewrite recv_clients_spec.
Qed.

(** C4: in SERVER mode, [send] of an envelope not addressed to
    ["NORELAY"] writes its serialization to the peers in enumeration
    order; the first failing write raises to the caller, the peers before
    it keep their writes and the peers after it get none.  [recv] instead
    catches a failure of a peer (poll, read or parse), skips that peer and
    still returns the envelopes of all the others. *)
Theorem send_recv_asymmetry (self : t) (clients : list wpipe.Client_) :
  is_server self = true ->
  pipe_handle self = Some (wpipe.Server clients) ->
  (forall m,
     py_eq_str (MessageObject.destination m) (lit "NORELAY") = false ->
     ((forall c, In c clients ->
         wpipe.write_ok c (MessageObject.to_json m) = true) ->
      send m self
      = (map (write_event (MessageObject.to_json m)) clients, self, Ok tt)) /\
     (forall good bad rest,
        clients = good ++ bad :: rest ->
        (forall c, In c good ->
           wpipe.write_ok c (MessageObject.to_json m) = true) ->
        wpipe.write_ok bad (MessageObject.to_json m) = false ->
        send m self
        = (map (write_event (MessageObject.to_json m)) good, self,
           Raise PipeError))) /\
  recv self
  = (WaitForData :: flat_map read_log clients, self,
     Ok (flat_map delivered clients)) /\
  (forall before p after,
     clients = before ++ p :: after ->
     raised (peer_outcome p) = true ->
     outcome (recv self)
     = Ok (flat_map delivered before ++ flat_map delivered after)).
Proof.
  intros Hs Hh.
  assert (Hsend : forall m,
    py_eq_str (MessageObject.destination m) (lit "NORELAY") = false ->
    send m self
    = for_each clients (client_write (MessageObject.to_json m)) self).
  { intros m Hm. unfold send. unfold Eff.bind at 1. unfold Eff.get.
    rewrite (is_server_bound _ _ Hs Hh), Hs, Hm, Hh. cbn [negb andb].
    now destruct (for_each clients _ self) as [[ev s] r]. }
  split; [| split].
  - intros m Hm. rewrite (Hsend m Hm). split.
    + apply for_each_write_all.
    + intros good bad rest ->. apply for_each_write_abort.
  - now apply recv_server.
  - intros before p after -> Hp. rewrite (recv_server _ _ Hs Hh).
    unfold outcome. cbn [snd]. rewrite flat_map_app. cbn [flat_map].
    unfold delivered at 2. destruct (peer_outcome p); [discriminate |].
    reflexivity.
Qed.

Lemma send_recv_asymmetry_witness :
  send Sample.hello (Sample.server_session Sample.three_peers)
  = ([Write 1 (MessageObject.to_json Sample.hello)],
     Sample.server_session Sample.three_peers, Raise PipeError)
  /\ outcome (recv (Sample.server_session Sample.three_peers))
     = Ok [Sample.hello;
           MessageObject.__init__ (JStr (lit "C")) (JStr (lit "D"))
             (JStr (lit "yo"))].
Proof.
  pose proof (send_recv_asymmetry (Sample.server_session Sample.three_peers)
                Sample.three_peers eq_refl eq_refl) as [Hsend [_ Hrecv]].
  split.
  - apply (proj2 (Hsend Sample.hello eq_refl)
             [Sample.peer 1 (Ok (MessageObject.to_json Sample.hello)) true]
             (Sample.peer 2 (Raise PipeError) false)
             [Sample.peer 3
                (Ok (json_text "{'source': 'C', 'destination': 'D', 'content': 'yo'}"))
                true]).
    + reflexivity.
    + intros c [<- | []]. reflexivity.
    + reflexivity.
  - rewrite (Hrecv
             [Sample.peer 1 (Ok (MessageObject.to_json Sample.hello)) true]
             (Sample.peer 2 (Raise PipeError) false)
             [Sample.peer 3
                (Ok (json_text "{'source': 'C', 'destination': 'D', 'content': 'yo'}"))
                true] eq_refl eq_refl).
    vm_compute. reflexivity.
Defined.

Section Collaborator.

Variable wpipe_Server : str -> result wpipe.handle.
Variable wpipe_Client : str -> result wpipe.handle.

Lemma handle_name_given c n self :
  _handle_name (Some (c :: n)) self = ([], set_pipe_name (c :: n) self, Ok (c :: n)).
Proof. reflexivity. Qed.

Lemma handle_name_stored name self :
  truthy name = false -> _pipe_name self <> [] ->
  _handle_name name self = ([], self, Ok (_pipe_name self)).
Proof.
  intros Hn Hs. unfold _handle_name, Eff.bind, Eff.get.
  destruct name as [[| c n] |]; try discriminate;
    destruct (_pipe_name self); try contradiction; reflexivity.
Qed.

Lemma handle_name_missing name self :
  truthy name = false -> _pipe_name self = [] ->
  _handle_name name self
  = ([], self,
     Raise (UnboundLocalError
              (lit "Unable to create or bind pipe: No name provided."))).
Proof.
  intros Hn Hs. unfold _handle_name, Eff.bind, Eff.get.
  destruct name as [[| c n] |]; try discriminate; rewrite Hs; reflexivity.
Qed.

(** A session created by [__init__] is consistent, and [bind] and
    [connect] keep it so, whether they succeed or fail. *)
Lemma init_consistent os_name self :
  __init__ os_name = Ok self -> consistent self.
Proof.
  unfold __init__. destruct (str_eqb os_name (lit "nt")); [| discriminate].
  intros [= <-]. reflexivity.
Qed.

Lemma bind_consistent name self :
  consistent self -> consistent (state (bind wpipe_Server name self)).
Proof.
  unfold consistent, bind, _handle_name, state. run_m.
  destruct self as [md nm ph].
  destruct name as [[| c n] |], nm as [| c' n'], ph as [h |];
    cbn [pipe_handle mode _pipe_name set_pipe_name set_bound fst snd app];
    try tauto; try (intros [Hm _]; split; [exact Hm | discriminate]).
  all: intros Hm;
    match goal with
    | |- context [wpipe_Server ?x] => destruct (wpipe_Server x)
    end;
    cbn [pipe_handle mode _pipe_name set_pipe_name set_bound fst snd app truthy];
    try exact Hm; split; [reflexivity | discriminate].
Qed.

Lemma connect_consistent name self :
  consistent self -> consistent (state (connect wpipe_Client name self)).
Proof.
  unfold consistent, connect, _handle_name, state. run_m.
  destruct self as [md nm ph].
  destruct name as [[| c n] |], nm as [| c' n'], ph as [h |];
    cbn [pipe_handle mode _pipe_name set_pipe_name set_bound fst snd app];
    try tauto; try (intros [Hm _]; split; [exact Hm | discriminate]).
  all: intros Hm;
    match goal with
    | |- context [wpipe_Client ?x] => destruct (wpipe_Client x)
    end;
    cbn [pipe_handle mode _pipe_name set_pipe_name set_bound fst snd app truthy];
    try exact Hm; split; [reflexivity | discriminate].
Qed.

(** C9, as amended: [send] and [recv] before any channel exists raise and
    leave the session unchanged; [bind] and [connect] on a session that
    already has a channel raise and leave mode and channel unchanged, but
    a name passed to the call has by then replaced the remembered one;
    [bind] and [connect] with no name argument and no remembered name
    raise [UnboundLocalError] and leave the session unchanged; a name is
    remembered as soon as it is passed to [bind] or [connect], whether or
    not the call succeeds, and a later call that omits the name reuses
    it. *)
Theorem precondition_failures (self : t) :
  (pipe_handle self = None ->
     (forall m, exists e, send m self = ([], self, Raise e)) /\
     (exists e, recv self = ([], self, Raise e))) /\
  (forall h name,
     pipe_handle self = Some h -> _pipe_name self <> [] ->
     let remembered :=
       match name with
       | Some (c :: n) => set_pipe_name (c :: n) self
       | _ => self
       end in
     (exists e, bind wpipe_Server name self = ([], remembered, Raise e)) /\
     (exists e, connect wpipe_Client name self = ([], remembered, Raise e)) /\
     mode remembered = mode self /\
     pipe_handle remembered = pipe_handle self) /\
  (forall name,
     truthy name = false -> _pipe_name self = [] ->
     bind wpipe_Server name self
     = ([], self,
        Raise (UnboundLocalError
                 (lit "Unable to create or bind pipe: No name provided."))) /\
     connect wpipe_Client name self
     = ([], self,
        Raise (UnboundLocalError
                 (lit "Unable to create or bind pipe: No name provided.")))) /\
  (forall c n,
     _pipe_name (state (bind wpipe_Server (Some (c :: n)) self)) = c :: n /\
     _pipe_name (state (connect wpipe_Client (Some (c :: n)) self)) = c :: n /\
     _handle_name None (state (bind wpipe_Server (Some (c :: n)) self))
     = ([], state (bind wpipe_Server (Some (c :: n)) self), Ok (c :: n)) /\
     _handle_name None (state (connect wpipe_Client (Some (c :: n)) self))
     = ([], state (connect wpipe_Client (Some (c :: n)) self), Ok (c :: n))).
Proof.
  split; [| split; [| split]].
  - intros Hh. split.
    + intros m. eexists. unfold send. run_m. unfold unbound. rewrite Hh.
      reflexivity.
    + eexists. unfold recv. run_m. unfold unbound. rewrite Hh. reflexivity.
  - intros h name Hh Hn remembered.
    assert (Hname : exists nm, _handle_name name self = ([], remembered, Ok nm)).
    { destruct name as [[| c n] |]; subst remembered.
      - exists (_pipe_name self). now apply handle_name_stored.
      - exists (c :: n). apply handle_name_given.
      - exists (_pipe_name self). now apply handle_name_stored. }
    assert (Hh' : pipe_handle remembered = Some h).
    { subst remembered. now destruct name as [[| c n] |]. }
    destruct Hname as [nm Hname].
    repeat split.
    + eexists. unfold bind. unfold Eff.bind at 1. rewrite Hname.
      unfold Eff.bind at 1. unfold Eff.get. rewrite Hh'. reflexivity.
    + eexists. unfold connect. unfold Eff.bind at 1. rewrite Hname.
      unfold Eff.bind at 1. unfold Eff.get. rewrite Hh'. reflexivity.
    + subst remembered. now destruct name as [[| c n] |].
    + subst remembered. now destruct name as [[| c n] |].
  - intros name Hn Hs. split.
    + unfold bind. unfold Eff.bind at 1.
      now rewrite (handle_name_missing name self Hn Hs).
    + unfold connect. unfold Eff.bind at 1.
      now rewrite (handle_name_missing name self Hn Hs).
  - intros c n.
    assert (Hb : _pipe_name (state (bind wpipe_Server (Some (c :: n)) self)) = c :: n).
    { unfold bind. unfold Eff.bind at 1. rewrite handle_name_given.
      unfold Eff.bind at 1. unfold Eff.get. cbn [set_pipe_name pipe_handle].
      destruct (pipe_handle self); [reflexivity |]. run_m.
      destruct (wpipe_Server (c :: n)); reflexivity. }
    assert (Hc : _pipe_name (state (connect wpipe_Client (Some (c :: n)) self)) = c :: n).
    { unfold connect. unfold Eff.bind at 1. rewrite handle_name_given.
      unfold Eff.bind at 1. unfold Eff.get. cbn [set_pipe_name pipe_handle].
      destruct (pipe_handle self); [reflexivity |]. run_m.
      destruct (wpipe_Client (c :: n)); reflexivity. }
    repeat split; try assumption.
    + rewrite handle_name_stored; [now rewrite Hb | reflexivity |].
      rewrite Hb. discriminate.
    + rewrite handle_name_stored; [now rewrite Hc | reflexivity |].
      rewrite Hc. discriminate.
Qed.

End Collaborator.

Lemma precondition_failures_witness :
  (exists e, recv Sample.fresh_session = ([], Sample.fresh_session, Raise e)) /\
  (exists e,
     bind Sample.accept_server (Some (lit "other"))
       (Sample.server_session Sample.three_peers)
     = ([], set_pipe_name (lit "other") (Sample.server_session Sample.three_peers),
        Raise e)) /\
  bind Sample.accept_server None Sample.fresh_session
  = ([], Sample.fresh_session,
     Raise (UnboundLocalError
              (lit "Unable to create or bind pipe: No name provided."))).
Proof.
  split; [| split].
  - apply (proj1 (precondition_failures Sample.accept_server Sample.accept_client
                    Sample.fresh_session) eq_refl).
  - apply (proj1 (proj2 (precondition_failures Sample.accept_server
                           Sample.accept_client
                           (Sample.server_session Sample.three_peers)))
             (wpipe.Server Sample.three_peers) (Some (lit "other")) eq_refl).
    discriminate.
  - apply (proj1 (proj2 (proj2 (precondition_failures Sample.accept_server
                                  Sample.accept_client Sample.fresh_session)))
             None eq_refl eq_refl).
Defined.

(** C9 as stated fails: [bind] with a new name on a bound session raises,
    yet the remembered name has changed; and a name passed to a [bind]
    that fails in the collaborator is remembered all the same. *)
Lemma failed_bind_changes_name :
  (raised (outcome (bind Sample.accept_server (Some (lit "other"))
                      (Sample.server_session Sample.three_peers))) = true /\
   state (bind Sample.accept_server (Some (lit "other"))
            (Sample.server_session Sample.three_peers))
   <> Sample.server_session Sample.three_peers) /\
  (raised (outcome (bind Sample.refuse (Some (lit "relay")) Sample.fresh_session))
   = true /\
   _pipe_name (state (bind Sample.refuse (Some (lit "relay")) Sample.fresh_session))
   = lit "relay").
Proof.
  split; split; try reflexivity.
  cbv [bind Eff.bind _handle_name Eff.modify Eff.ret Eff.get state fst snd
         Sample.server_session pipe_handle set_pipe_name OperationalError
         Eff.raise mode _pipe_name].
  intros H. apply (f_equal _pipe_name) in H. cbn [_pipe_name] in H.
  vm_compute in H. discriminate.
Qed.

End Transport.

(* ================================================================= *)
(** ** The outbound queue and its drain worker *)

Section Drain.

Import Root.

Lemma sends_app t1 t2 : sends (t1 ++ t2) = sends t1 ++ sends t2.
Proof. apply flat_map_app. Qed.

Lemma prints_app t1 t2 : prints (t1 ++ t2) = prints t1 ++ prints t2.
Proof. apply flat_map_app. Qed.

Lemma for_each_write_quiet data clients self :
  exists ev r,
    for_each clients (NamedPipeInterface.client_write data) self = (ev, self, r)
    /\ sends ev = [].
Proof.
  induction clients as [| c cs IH]; [now exists [], (Ok tt) |].
  cbn [for_each]. unfold Eff.bind at 1.
  unfold NamedPipeInterface.client_write at 1.
  destruct (wpipe.write_ok c data); [| now exists [], (Raise PipeError)].
  unfold Eff.emit. destruct IH as (ev & r & -> & Hev).
  now exists ([Write (wpipe.client_id c) data] ++ ev), r.
Qed.

(** [send] records no call of its own and never changes the session. *)
Lemma send_quiet m srv :
  exists ev r, NamedPipeInterface.send m srv = (ev, srv, r) /\ sends ev = [].
Proof.
  unfold NamedPipeInterface.send. unfold Eff.bind at 1. unfold Eff.get.
  destruct (NamedPipeInterface.unbound srv); [now eexists _, _ |].
  destruct (NamedPipeInterface.is_server srv
            && negb (py_eq_str (MessageObject.destination m) (lit "NORELAY"))).
  - destruct (NamedPipeInterface.pipe_handle srv) as [[clients | c] |];
      try (now eexists _, _).
    destruct (for_each_write_quiet (MessageObject.to_json m) clients srv)
      as (ev & r & -> & Hev).
    now exists ([] ++ ev), r.
  - destruct (negb (NamedPipeInterface.is_server srv)); [| now eexists _, _].
    destruct (NamedPipeInterface.pipe_handle srv) as [[clients | c] |];
      try (now eexists _, _).
    destruct (wpipe.client_write_ok c (MessageObject.to_json m));
      now eexists _, _.
Qed.

Lemma set_server_same self : set_server (server self) self = self.
Proof. now destruct self. Qed.

(** What a pass does on a non-empty queue. *)
Lemma pass_nonempty self head rest :
  message_queue self = head :: rest ->
  _message_thread_pass self =
  (match MessageObject.from_json head with
   | Raise e => [PrintTransmitError e head]
   | Ok m =>
       CallSend m :: events (NamedPipeInterface.send m (server self))
         ++ match outcome (NamedPipeInterface.send m (server self)) with
            | Ok _ => []
            | Raise e => [PrintTransmitError e head]
            end
   end,
   set_queue rest self, Ok tt).
Proof.
  intros Hq. unfold _message_thread_pass. unfold Eff.bind at 1. unfold Eff.get.
  rewrite Hq. cbn [app].
  unfold Eff.finally, Eff.try_except, queue_head, queue_pop, server_send,
    Eff.zoom, Eff.bind, Eff.get, Eff.lift, Eff.ret, Eff.emit, Eff.modify.
  rewrite Hq.
  destruct (MessageObject.from_json head) as [m | e]; cbn [app].
  - destruct (send_quiet m (server self)) as (ev & r & -> & _).
    unfold state, events, outcome. cbn [fst snd].
    rewrite set_server_same.
    destruct r as [[] | e]; cbn [app]; rewrite Hq; cbn [app];
      rewrite ?Hq; rewrite ?app_nil_r; reflexivity.
  - rewrite Hq. cbn [app]. rewrite Hq. reflexivity.
Qed.

Lemma sends_pass head srv :
  sends (match MessageObject.from_json head with
         | Raise e => [PrintTransmitError e head]
         | Ok m =>
             CallSend m :: events (NamedPipeInterface.send m srv)
               ++ match outcome (NamedPipeInterface.send m srv) with
                  | Ok _ => []
                  | Raise e => [PrintTransmitError e head]
                  end
         end)
  = match MessageObject.from_json head with Ok m => [m] | Raise _ => [] end.
Proof.
  destruct (MessageObject.from_json head) as [m | e]; [| reflexivity].
  destruct (send_quiet m srv) as (ev & r & -> & Hev).
  unfold events, outcome. cbn [fst snd].
  change (sends (CallSend m :: ?x)) with (m :: sends x).
  rewrite sends_app, Hev. now destruct r.
Qed.

Lemma pass_empty self :
  message_queue self = [] ->
  _message_thread_pass self = ([Sleep (1 # 2)], self, Ok tt).
Proof.
  intros Hq. unfold _message_thread_pass. unfold Eff.bind at 1. unfold Eff.get.
  now rewrite Hq.
Qed.

(** C6: a pass of the drain loop never raises.  On a non-empty queue it
    removes exactly the head; when parsing the head or sending it fails,
    the failure is printed with the head's content and nothing else
    happens to the queue.  On an empty queue it sleeps half a second and
    changes nothing.  The loop then goes on with the next pass. *)
Theorem drain_pass_isolates_failures (self : t) :
  outcome (_message_thread_pass self) = Ok tt /\
  alive (state (_message_thread_pass self)) = alive self /\
  (message_queue self = [] ->
     _message_thread_pass self = ([Sleep (1 # 2)], self, Ok tt)) /\
  (forall head rest,
     message_queue self = head :: rest ->
     state (_message_thread_pass self) = set_queue rest self /\
     (forall e,
        MessageObject.from_json head = Raise e ->
        events (_message_thread_pass self) = [PrintTransmitError e head]) /\
     (forall m e,
        MessageObject.from_json head = Ok m ->
        outcome (NamedPipeInterface.send m (server self)) = Raise e ->
        events (_message_thread_pass self)
        = CallSend m :: events (NamedPipeInterface.send m (server self))
            ++ [PrintTransmitError e head])) /\
  (forall n,
     alive self = true ->
     _message_thread (S n) self
     = (events (_message_thread_pass self)
          ++ events (_message_thread n (state (_message_thread_pass self))),
        state (_message_thread n (state (_message_thread_pass self))),
        outcome (_message_thread n (state (_message_thread_pass self))))).
Proof.
  assert (Hok : outcome (_message_thread_pass self) = Ok tt).
  { destruct (message_queue self) as [| head rest] eqn:Hq.
    - now rewrite pass_empty.
    - now rewrite (pass_nonempty _ _ _ Hq). }
  split; [exact Hok |]. split; [| split; [| split]].
  - destruct (message_queue self) as [| head rest] eqn:Hq.
    + now rewrite pass_empty.
    + now rewrite (pass_nonempty _ _ _ Hq).
  - apply pass_empty.
  - intros head rest Hq. rewrite (pass_nonempty _ _ _ Hq).
    split; [reflexivity |]. split.
    + intros e ->. reflexivity.
    + intros m e -> ->. reflexivity.
  - intros n Ha. cbn [_message_thread]. unfold Eff.bind at 1. unfold Eff.get.
    rewrite Ha. unfold Eff.bind.
    destruct (_message_thread_pass self) as [[ev s] r].
    unfold outcome in Hok. cbn [snd] in Hok. subst r.
    unfold events, state, outcome. cbn [fst snd].
    now destruct (_message_thread n s) as [[ev' s'] r'].
Qed.

Lemma drain_pass_isolates_failures_witness :
  _message_thread_pass (SampleRoot.running [])
  = ([Sleep (1 # 2)], SampleRoot.running [], Ok tt)
  /\ events (_message_thread_pass (SampleRoot.running SampleRoot.queue))
     = [PrintTransmitError JSONDecodeError (lit "{not json")]
  /\ message_queue (state (_message_thread_pass (SampleRoot.running SampleRoot.queue)))
     = tl SampleRoot.queue.
Proof.
  split; [| split].
  - apply (proj1 (proj2 (proj2 (drain_pass_isolates_failures
                                  (SampleRoot.running []))))).
    reflexivity.
  - destruct (proj1 (proj2 (proj2 (proj2 (drain_pass_isolates_failures
                                            (SampleRoot.running SampleRoot.queue)))))
                (lit "{not json") (tl SampleRoot.queue) eq_refl)
      as [_ [Hparse _]].
    apply Hparse. reflexivity.
  - destruct (proj1 (proj2 (proj2 (proj2 (drain_pass_isolates_failures
                                            (SampleRoot.running SampleRoot.queue)))))
                (lit "{not json") (tl SampleRoot.queue) eq_refl)
      as [Hstate _].
    rewrite Hstate. reflexivity.
Defined.

Lemma parsed_app q1 q2 : parsed (q1 ++ q2) = parsed q1 ++ parsed q2.
Proof. apply flat_map_app. Qed.

Lemma check_keys_object d :
  check_keys validate_set (JObj d) true
  = Ok (dict_contains (lit "source") d
        && dict_contains (lit "destination") d
        && dict_contains (lit "content") d).
Proof.
  unfold validate_set. cbn [check_keys py_in].
  destruct (dict_contains (lit "source") d),
    (dict_contains (lit "destination") d),
    (dict_contains (lit "content") d); reflexivity.
Qed.

Lemma post_interface_spec body self :
  post_interface body self =
  match check_keys validate_set body true with
  | Raise e => ([], self, Raise e)
  | Ok true =>
      ([Print (lit "[+] Broadcasting message: " ++ dumps body)],
       set_queue (message_queue self ++ [dumps body]) self,
       Ok (operation_result true))
  | Ok false => ([], self, Ok (operation_result false))
  end.
Proof.
  unfold post_interface, Eff.bind, Eff.lift, Eff.emit, Eff.modify, Eff.ret.
  destruct (check_keys validate_set body true) as [[] |]; reflexivity.
Qed.

Import ServerProcess.

Lemma step_spec a self :
  exists ev s,
    step a self = (ev, s, Ok tt) /\
    sends ev ++ parsed (message_queue s)
    = parsed (message_queue self ++ pushed [a]).
Proof.
  destruct a as [body | | srv]; unfold pushed; cbn [flat_map step].
  - unfold Eff.try_except, Eff.bind at 1. rewrite post_interface_spec.
    destruct (check_keys validate_set body true) as [[] | e].
    + eexists _, _. split; [reflexivity |]. reflexivity.
    + eexists _, _. split; [reflexivity |]. cbn. now rewrite app_nil_r.
    + eexists _, _. split; [reflexivity |]. cbn. now rewrite app_nil_r.
  - unfold Eff.bind at 1. unfold Eff.get. rewrite app_nil_r.
    destruct (alive self); [| now exists [], self].
    destruct (message_queue self) as [| head rest] eqn:Hq.
    + rewrite (pass_empty _ Hq). eexists _, _. split; [reflexivity |].
      now rewrite Hq.
    + rewrite (pass_nonempty _ _ _ Hq). eexists _, _.
      split; [reflexivity |]. cbn [set_queue message_queue parsed flat_map app].
      now rewrite sends_pass.
  - exists [], (set_server srv self). split; [reflexivity |].
    cbn. now rewrite app_nil_r.
Qed.

Lemma run_spec schedule : forall self,
  exists ev s,
    run schedule self = (ev, s, Ok tt) /\
    sends ev ++ parsed (message_queue s)
    = parsed (message_queue self ++ pushed schedule).
Proof.
  induction schedule as [| a rest IH]; intros self.
  - exists [], self. split; [reflexivity |]. cbn. now rewrite app_nil_r.
  - unfold run. cbn [for_each]. unfold Eff.bind.
    destruct (step_spec a self) as (ev & s & -> & Hstep).
    destruct (IH s) as (ev' & s' & Hrun & Hrest). unfold run in Hrun.
    rewrite Hrun. exists (ev ++ ev'), s'. split; [reflexivity |].
    rewrite sends_app, <- app_assoc, Hrest.
    replace (pushed (a :: rest)) with (pushed [a] ++ pushed rest)
      by (unfold pushed; cbn [flat_map]; now rewrite app_nil_r).
    rewrite !parsed_app in *. rewrite !app_assoc. now rewrite Hstep.
Qed.

Lemma drain_all payloads : forall srv,
  exists ev,
    _message_thread (List.length payloads)
      {| alive := true; message_queue := payloads; server := srv |}
    = (ev, {| alive := true; message_queue := []; server := srv |}, Ok tt)
    /\ sends ev = parsed payloads.
Proof.
  induction payloads as [| head rest IH]; intros srv.
  - now exists [].
  - cbn [List.length _message_thread]. unfold Eff.bind at 1. unfold Eff.get.
    cbn [alive]. unfold Eff.bind.
    rewrite (pass_nonempty
               {| alive := true; message_queue := head :: rest; server := srv |}
               head rest eq_refl).
    change (set_queue rest
              {| alive := true; message_queue := head :: rest; server := srv |})
      with {| alive := true; message_queue := rest; server := srv |}.
    destruct (IH srv) as (ev' & -> & Hev'). eexists. split; [reflexivity |].
    cbn [app]. rewrite sends_app, Hev', sends_pass. reflexivity.
Qed.

(** C5: the payloads pushed to the queue are taken from its head and
    handed to [send] in the order they were pushed, each at most once.
    Whatever the interleaving of requests, drain passes and transport
    changes, the calls of [send] made so far followed by the envelopes
    still queued are the envelopes of the payloads pushed, in push order;
    and as many passes as there are queued payloads send them all, in
    order, and leave the queue empty. *)
Theorem drain_fifo :
  (forall schedule self,
     outcome (run schedule self) = Ok tt /\
     sends (events (run schedule self))
       ++ parsed (message_queue (state (run schedule self)))
     = parsed (message_queue self ++ pushed schedule)) /\
  (forall payloads srv,
     sends (events (_message_thread (List.length payloads)
                      {| alive := true; message_queue := payloads;
                         server := srv |}))
     = parsed payloads /\
     message_queue (state (_message_thread (List.length payloads)
                             {| alive := true; message_queue := payloads;
                                server := srv |}))
     = [] /\
     outcome (_message_thread (List.length payloads)
                {| alive := true; message_queue := payloads; server := srv |})
     = Ok tt).
Proof.
  split.
  - intros schedule self.
    destruct (run_spec schedule self) as (ev & s & -> & H). now split.
  - intros payloads srv.
    destruct (drain_all payloads srv) as (ev & -> & H). now repeat split.
Qed.

(** C8, as amended: for a request whose body is a JSON object the answer
    is [{"operation": "POST", "successful": b}], where [b] is false exactly
    when one of [source], [destination], [content] is absent; when [b] is
    false the queue is unchanged; when [b] is true the queue gains, at its
    tail, the serialization by [json.dumps] of the decoded body. *)
Theorem post_interface_object (d : dict) (self : t) :
  post_interface (JObj d) self
  = (if dict_contains (lit "source") d && dict_contains (lit "destination") d
        && dict_contains (lit "content") d
     then [Print (lit "[+] Broadcasting message: " ++ dumps (JObj d))]
     else [],
     if dict_contains (lit "source") d && dict_contains (lit "destination") d
        && dict_contains (lit "content") d
     then set_queue (message_queue self ++ [dumps (JObj d)]) self
     else self,
     Ok (operation_result
           (dict_contains (lit "source") d && dict_contains (lit "destination") d
            && dict_contains (lit "content") d))).
Proof.
  rewrite post_interface_spec, check_keys_object.
  now destruct (dict_contains (lit "source") d && dict_contains (lit "destination") d
                && dict_contains (lit "content") d).
Qed.

(** C8 as stated fails: a body written without spaces after its
    separators is accepted, and what is queued is its re-serialization,
    which differs from the body received. *)
Lemma post_interface_not_verbatim :
  loads (json_text "{'source':'A','destination':'B','content':'hi'}")
  = Some (JObj [(lit "source", JStr (lit "A"));
                (lit "destination", JStr (lit "B"));
                (lit "content", JStr (lit "hi"))]) /\
  outcome (post_interface
             (JObj [(lit "source", JStr (lit "A"));
                    (lit "destination", JStr (lit "B"));
                    (lit "content", JStr (lit "hi"))])
             (__init__ Sample.fresh_session))
  = Ok (operation_result true) /\
  message_queue
    (state (post_interface
              (JObj [(lit "source", JStr (lit "A"));
                     (lit "destination", JStr (lit "B"));
                     (lit "content", JStr (lit "hi"))])
              (__init__ Sample.fresh_session)))
  = [json_text "{'source': 'A', 'destination': 'B', 'content': 'hi'}"] /\
  [json_text "{'source': 'A', 'destination': 'B', 'content': 'hi'}"]
  <> [json_text "{'source':'A','destination':'B','content':'hi'}"].
Proof.
  repeat split; try (vm_compute; reflexivity).
  vm_compute. discriminate.
Qed.

End Drain.

(* ================================================================= *)
(** ** The client relay loop *)

Section ClientLoop.

Import NamedPipeInterface Main.

Lemma poll_until_readable_spec answers self :
  exists ev,
    poll_until_readable answers self = (ev, self, Ok tt)
    /\ sends ev = [] /\ prints ev = [].
Proof.
  induction answers as [| [] rest IH]; try (now exists []).
  cbn [poll_until_readable]. unfold Eff.bind, Eff.emit.
  destruct IH as (ev & -> & Hs & Hp). exists ([Sleep (1 # 2)] ++ ev).
  now repeat split.
Qed.

(** In CLIENT mode [recv] only sleeps, reads and parses. *)
Lemma recv_client_mode self c :
  is_server self = false -> truthy (mode self) = true ->
  pipe_handle self = Some (wpipe.Client c) ->
  exists ev r, recv self = (ev, self, r) /\ sends ev = [] /\ prints ev = [].
Proof.
  intros Hs Hm Hh. unfold recv. unfold Eff.bind at 1. unfold Eff.get.
  unfold unbound. rewrite Hh, Hm, Hs. cbn [negb orb app].
  assert (Hpoll : exists ev,
    (match wpipe.polls c with
     | false :: rest => poll_until_readable rest
     | _ => Eff.ret tt
     end) self = (ev, self, Ok tt) /\ sends ev = [] /\ prints ev = []).
  { destruct (wpipe.polls c) as [| [] rest]; try (now exists []).
    apply poll_until_readable_spec. }
  destruct Hpoll as (ev & Hpoll & Hsends & Hprints).
  unfold Eff.bind at 1. rewrite Hpoll.
  unfold Eff.bind, Eff.lift, Eff.ret.
  destruct (wpipe.client_read c) as [[| ch text] | e].
  - exists (ev ++ [] ++ []), (Ok []). rewrite !app_nil_r. now repeat split.
  - destruct (MessageObject.from_json (ch :: text)) as [m | e].
    + exists (ev ++ [] ++ [] ++ []), (Ok [m]). rewrite !app_nil_r.
      now repeat split.
    + exists (ev ++ [] ++ []), (Raise e). rewrite !app_nil_r.
      now repeat split.
  - exists (ev ++ []), (Raise e). rewrite !app_nil_r. now repeat split.
Qed.

Lemma send_client_mode self c m :
  is_server self = false -> truthy (mode self) = true ->
  pipe_handle self = Some (wpipe.Client c) ->
  send m self
  = if wpipe.client_write_ok c (MessageObject.to_json m)
    then ([Write 0 (MessageObject.to_json m)], self, Ok tt)
    else ([], self, Raise PipeError).
Proof.
  intros Hs Hm Hh. unfold send. unfold Eff.bind at 1. unfold Eff.get.
  unfold unbound. rewrite Hh, Hm, Hs. cbn [negb orb andb app].
  now destruct (wpipe.client_write_ok c (MessageObject.to_json m)).
Qed.

Lemma for_each_print (messages : list MessageObject.t) (self : t) :
  for_each messages (fun message => emit (Print (MessageObject.to_json message))) self
  = (map (fun message => Print (MessageObject.to_json message)) messages, self, Ok tt).
Proof.
  induction messages as [| m ms IH]; [reflexivity |].
  cbn [for_each map]. unfold Eff.bind at 1. unfold Eff.emit at 1.
  now rewrite IH.
Qed.

Lemma sends_of_prints (messages : list MessageObject.t) :
  flat_map (fun e => match e with CallSend m => [m] | _ => [] end)
    (map (fun message => Print (MessageObject.to_json message)) messages) = [].
Proof. induction messages as [| m ms IH]; [reflexivity | exact IH]. Qed.

(** C7: in CLIENT mode, a pass of the relay loop in which [recv] returns
    envelopes calls [send] exactly once, with the fixed acknowledgement
    ([PIPECLIENT], [NORELAY], [Acknowledged]), and prints the received
    envelopes only after that call; nothing is printed before it.  When
    [recv] returns nothing, the pass neither sends nor prints. *)
Theorem client_pass_acknowledges (self : t) (c : wpipe.ClientEnd) :
  is_server self = false ->
  truthy (mode self) = true ->
  pipe_handle self = Some (wpipe.Client c) ->
  (forall first others,
     outcome (recv self) = Ok (first :: others) ->
     events (_client_thread_pass self)
     = events (recv self)
         ++ CallSend acknowledgement_message
         :: events (send acknowledgement_message self)
         ++ match outcome (send acknowledgement_message self) with
            | Ok _ =>
                map (fun message => Print (MessageObject.to_json message))
                  (first :: others)
            | Raise _ => []
            end
     /\ sends (events (_client_thread_pass self)) = [acknowledgement_message]
     /\ prints (events (recv self)) = []
     /\ prints (events (send acknowledgement_message self)) = []) /\
  (outcome (recv self) = Ok [] ->
     events (_client_thread_pass self) = events (recv self)
     /\ sends (events (_client_thread_pass self)) = []
     /\ prints (events (_client_thread_pass self)) = []) /\
  acknowledgement_message
  = MessageObject.__init__ (JStr (lit "PIPECLIENT")) (JStr (lit "NORELAY"))
      (JStr (lit "Acknowledged")).
Proof.
  intros Hs Hm Hh.
  destruct (recv_client_mode self c Hs Hm Hh) as (ev & r & Hrecv & Hsends & Hprints).
  pose proof (send_client_mode self c acknowledgement_message Hs Hm Hh) as Hsend.
  split; [| split; [| reflexivity]].
  - intros first others Hr. rewrite Hrecv in Hr |- *.
    unfold outcome in Hr. cbn [snd] in Hr. subst r.
    assert (Hpass : events (_client_thread_pass self)
                    = ev ++ CallSend acknowledgement_message
                        :: events (send acknowledgement_message self)
                        ++ match outcome (send acknowledgement_message self) with
                           | Ok _ =>
                               map (fun message =>
                                      Print (MessageObject.to_json message))
                                 (first :: others)
                           | Raise _ => []
                           end).
    { unfold _client_thread_pass, pipe_send. unfold Eff.bind at 1.
      rewrite Hrecv. unfold Eff.bind at 1. unfold Eff.bind at 1.
      unfold Eff.emit at 1. rewrite Hsend.
      destruct (wpipe.client_write_ok c
                  (MessageObject.to_json acknowledgement_message));
        [rewrite for_each_print |]; reflexivity. }
    rewrite Hpass. unfold events at 1 3. cbn [fst].
    repeat split; try assumption.
    + rewrite sends_app, Hsends, Hsend.
      destruct (wpipe.client_write_ok c
                  (MessageObject.to_json acknowledgement_message));
        unfold events, outcome; cbn [fst snd app sends flat_map];
        [| reflexivity].
      f_equal. apply sends_of_prints.
    + rewrite Hsend.
      now destruct (wpipe.client_write_ok c
                      (MessageObject.to_json acknowledgement_message)).
  - intros Hr. rewrite Hrecv in Hr |- *.
    unfold outcome in Hr. cbn [snd] in Hr. subst r.
    assert (Hpass : events (_client_thread_pass self) = ev).
    { unfold _client_thread_pass. unfold Eff.bind at 1. rewrite Hrecv.
      unfold Eff.ret, events. cbn [fst]. now rewrite app_nil_r. }
    rewrite Hpass. now repeat split.
Qed.

Lemma client_pass_acknowledges_witness :
  events (_client_thread_pass SampleClient.session)
  = [Sleep (1 # 2);
     CallSend acknowledgement_message;
     Write 0 (MessageObject.to_json acknowledgement_message);
     Print (MessageObject.to_json Sample.hello)]
  /\ events (_client_thread_pass SampleClient.idle) = [].
Proof.
  destruct (client_pass_acknowledges SampleClient.session
              {| wpipe.polls := [false; false; true];
                 wpipe.client_read := Ok (MessageObject.to_json Sample.hello);
                 wpipe.client_write_ok := fun _ => true |}
              eq_refl eq_refl eq_refl) as [Hsome _].
  destruct (client_pass_acknowledges SampleClient.idle
              {| wpipe.polls := []; wpipe.client_read := Ok [];
                 wpipe.client_write_ok := fun _ => true |}
              eq_refl eq_refl eq_refl) as [_ [Hnone _]].
  split.
  - rewrite (proj1 (Hsome Sample.hello [] ltac:(vm_compute; reflexivity))).
    vm_compute. reflexivity.
  - rewrite (proj1 (Hnone ltac:(vm_compute; reflexivity))).
    vm_compute. reflexivity.
Defined.

End ClientLoop.

(* ================================================================= *)
(** ** Further properties of the envelope *)

Section EnvelopeMore.

Import MessageObject.

Lemma hexdigit_printable d : d < 16 -> printable (hexdigit d) = true.
Proof.
  intros Hd. unfold printable, hexdigit.
  destruct (N.ltb_spec d 10); apply andb_true_iff; split; apply N.leb_le; lia.
Qed.

Lemma u_escape_printable n : forallb printable (u_escape n) = true.
Proof.
  unfold u_escape, hex4. cbn [forallb].
  rewrite !hexdigit_printable by (apply N.mod_lt; discriminate).
  reflexivity.
Qed.

Lemma escape_char_printable c : forallb printable (escape_char c) = true.
Proof.
  unfold escape_char.
  repeat match goal with
         | |- context [if N.eqb c ?k then _ else _] =>
             destruct (N.eqb c k); [reflexivity |]
         end.
  destruct ((32 <=? c) && (c <=? 126)) eqn:E.
  - cbn [forallb]. unfold printable. now rewrite E.
  - destruct (c <? 0x10000); [apply u_escape_printable |].
    rewrite forallb_app. now rewrite !u_escape_printable.
Qed.

Lemma escape_body_printable s : forallb printable (escape_body s) = true.
Proof.
  induction s as [| c s IH]; [reflexivity |].
  unfold escape_body in *. cbn [flat_map]. rewrite forallb_app.
  now rewrite escape_char_printable, IH.
Qed.

(** X1: the serialization of an envelope with string fields is made of
    printable ASCII characters only, whatever the fields hold; it contains
    no line break, so each envelope the client prints is one line. *)
Theorem to_json_one_line (a b c : str) :
  forallb printable (to_json (__init__ (JStr a) (JStr b) (JStr c))) = true /\
  ~ In 10 (to_json (__init__ (JStr a) (JStr b) (JStr c))).
Proof.
  assert (H : forallb printable (to_json (__init__ (JStr a) (JStr b) (JStr c)))
              = true).
  { rewrite to_json_text. unfold member_text.
    repeat first [ progress cbn [forallb]
                 | rewrite forallb_app
                 | rewrite escape_body_printable ].
    reflexivity. }
  split; [exact H |]. intros Hin.
  rewrite forallb_forall in H. specialize (H 10 Hin). discriminate.
Qed.

(** X2: for string fields that survive the codec, the text made by
    [to_json] decodes to the dictionary that [as_dictionary] builds: the
    three keys, in the order source, destination, content. *)
Theorem to_json_decodes_to_dictionary (a b c : str) :
  valid_field a = true -> valid_field b = true -> valid_field c = true ->
  loads (to_json (__init__ (JStr a) (JStr b) (JStr c)))
  = Some (as_dictionary (__init__ (JStr a) (JStr b) (JStr c)))
  /\ as_dictionary (__init__ (JStr a) (JStr b) (JStr c))
     = JObj [(lit "source", JStr a); (lit "destination", JStr b);
             (lit "content", JStr c)].
Proof. intros Ha Hb Hc. split; [now apply loads_to_json | reflexivity]. Qed.

Lemma to_json_decodes_to_dictionary_witness :
  loads (to_json Sample.hello) = Some (as_dictionary Sample.hello).
Proof.
  apply (to_json_decodes_to_dictionary (lit "A") (lit "B") (lit "hi"));
    reflexivity.
Defined.

Lemma from_json_ok_object (s : str) (m : t) :
  from_json s = Ok m ->
  exists d,
    loads s = Some (JObj d) /\
    dict_get (lit "source") d = Some (source m) /\
    dict_get (lit "destination") d = Some (destination m) /\
    dict_get (lit "content") d = Some (content m).
Proof.
  unfold from_json. destruct (loads s) as [v |]; [| discriminate].
  destruct (validate validate_set v); [| discriminate].
  destruct v; cbn [py_getitem]; try discriminate.
  destruct (dict_get (lit "source") members) as [x |] eqn:Hx; [| discriminate].
  destruct (dict_get (lit "destination") members) as [y |] eqn:Hy;
    [| discriminate].
  destruct (dict_get (lit "content") members) as [z |] eqn:Hz; [| discriminate].
  intros [= <-]. exists members. cbn [source destination content].
  now rewrite Hx, Hy, Hz.
Qed.

(** X3: [from_json] succeeds only on a text that decodes to an object
    holding the three keys, and the envelope then holds exactly their
    values; no array, string, number, boolean or null ever gives one. *)
Theorem from_json_only_objects (s : str) (m : t) :
  from_json s = Ok m ->
  exists d,
    loads s = Some (JObj d) /\
    dict_get (lit "source") d = Some (source m) /\
    dict_get (lit "destination") d = Some (destination m) /\
    dict_get (lit "content") d = Some (content m).
Proof. apply from_json_ok_object. Qed.

Lemma from_json_only_objects_witness :
  exists d,
    loads (json_text "{'content': 1, 'destination': null, 'source': 'A'}")
    = Some (JObj d) /\
    dict_get (lit "source") d = Some (JStr (lit "A")) /\
    dict_get (lit "destination") d = Some JNull /\
    dict_get (lit "content") d = Some (JInt 1).
Proof.
  apply (from_json_only_objects
           (json_text "{'content': 1, 'destination': null, 'source': 'A'}")
           (__init__ (JStr (lit "A")) JNull (JInt 1))).
  reflexivity.
Defined.

End EnvelopeMore.

(* ================================================================= *)
(** ** Further properties of the transport session *)

Section TransportMore.

Import NamedPipeInterface.

Lemma str_eqb_eq a : forall b, str_eqb a b = true <-> a = b.
Proof.
  induction a as [| x a IH]; intros [| y b]; cbn [str_eqb];
    try (split; (discriminate || reflexivity)).
  rewrite andb_true_iff, N.eqb_eq, IH. split.
  - now intros [-> ->].
  - now intros [= -> ->].
Qed.



Lemma handle_name_chosen name self :
  chosen_name name self <> [] ->
  _handle_name name self
  = ([], set_pipe_name (chosen_name name self) self, Ok (chosen_name name self)).
Proof.
  intros H. destruct name as [[| c n] |]; cbn [chosen_name] in *.
  - rewrite handle_name_stored by (reflexivity || assumption).
    now destruct self.
  - reflexivity.
  - rewrite handle_name_stored by (reflexivity || assumption).
    now destruct self.
Qed.

Section Collaborator.

Variable wpipe_Server : str -> result wpipe.handle.
Variable wpipe_Client : str -> result wpipe.handle.

Lemma bind_success (name : option str) (self : t) (h : wpipe.handle) :
  pipe_handle self = None ->
  chosen_name name self <> [] ->
  wpipe_Server (chosen_name name self) = Ok h ->
  bind wpipe_Server name self
  = ([Print (lit "[+] Binding wpipe server to name: " ++ chosen_name name self)],
     {| mode := Some (lit "SERVER"); _pipe_name := chosen_name name self;
        pipe_handle := Some h |},
     Ok tt)
  /\ is_server (state (bind wpipe_Server name self)) = true.
Proof.
  intros Hh Hn Hopen.
  assert (E : bind wpipe_Server name self
    = ([Print (lit "[+] Binding wpipe server to name: " ++ chosen_name name self)],
       {| mode := Some (lit "SERVER"); _pipe_name := chosen_name name self;
          pipe_handle := Some h |},
       Ok tt)).
  { unfold bind. unfold Eff.bind at 1. rewrite (handle_name_chosen _ _ Hn).
    unfold Eff.bind at 1. unfold Eff.get. cbn [set_pipe_name pipe_handle].
    rewrite Hh. unfold Eff.bind, Eff.emit, Eff.lift, Eff.modify.
    rewrite Hopen. reflexivity. }
  split; [exact E |]. now rewrite E.
Qed.

(** X5: [bind] on a session without channel, with a name to use and a
    collaborator that opens the pipe, prints the binding line and leaves
    the session in SERVER mode with that name and the new channel. *)
Theorem bind_opens_server (name : option str) (self : t) (h : wpipe.handle) :
  pipe_handle self = None ->
  chosen_name name self <> [] ->
  wpipe_Server (chosen_name name self) = Ok h ->
  bind wpipe_Server name self
  = ([Print (lit "[+] Binding wpipe server to name: " ++ chosen_name name self)],
     {| mode := Some (lit "SERVER"); _pipe_name := chosen_name name self;
        pipe_handle := Some h |},
     Ok tt)
  /\ is_server (state (bind wpipe_Server name self)) = true.
Proof. apply bind_success. Qed.

Lemma connect_success (name : option str) (self : t) (h : wpipe.handle) :
  pipe_handle self = None ->
  chosen_name name self <> [] ->
  wpipe_Client (chosen_name name self) = Ok h ->
  connect wpipe_Client name self
  = ([],
     {| mode := Some (lit "CLIENT"); _pipe_name := chosen_name name self;
        pipe_handle := Some h |},
     Ok tt)
  /\ is_server (state (connect wpipe_Client name self)) = false.
Proof.
  intros Hh Hn Hopen.
  assert (E : connect wpipe_Client name self
    = ([],
       {| mode := Some (lit "CLIENT"); _pipe_name := chosen_name name self;
          pipe_handle := Some h |},
       Ok tt)).
  { unfold connect. unfold Eff.bind at 1. rewrite (handle_name_chosen _ _ Hn).
    unfold Eff.bind at 1. unfold Eff.get. cbn [set_pipe_name pipe_handle].
    rewrite Hh. unfold Eff.bind, Eff.lift, Eff.modify.
    rewrite Hopen. reflexivity. }
  split; [exact E |]. now rewrite E.
Qed.

(** X6: [connect] under the same conditions prints nothing and leaves
    the session in CLIENT mode with that name and the new channel. *)
Theorem connect_opens_client (name : option str) (self : t) (h : wpipe.handle) :
  pipe_handle self = None ->
  chosen_name name self <> [] ->
  wpipe_Client (chosen_name name self) = Ok h ->
  connect wpipe_Client name self
  = ([],
     {| mode := Some (lit "CLIENT"); _pipe_name := chosen_name name self;
        pipe_handle := Some h |},
     Ok tt)
  /\ is_server (state (connect wpipe_Client name self)) = false.
Proof. apply connect_success. Qed.

End Collaborator.

Lemma bind_opens_server_witness :
  is_server (state (bind Sample.accept_server (Some (lit "relay"))
                      Sample.fresh_session)) = true.
Proof.
  apply (bind_opens_server Sample.accept_server (Some (lit "relay"))
           Sample.fresh_session (wpipe.Server []));
    (reflexivity || discriminate).
Defined.

Lemma connect_opens_client_witness :
  is_server (state (connect Sample.accept_client (Some (lit "relay"))
                      Sample.fresh_session)) = false.
Proof.
  apply (connect_opens_client Sample.accept_client (Some (lit "relay"))
           Sample.fresh_session
           (wpipe.Client {| wpipe.polls := []; wpipe.client_read := Ok [];
                            wpipe.client_write_ok := fun _ => true |}));
    (reflexivity || discriminate).
Defined.

Lemma recv_keeps_session self :
  exists ev r, recv self = (ev, self, r).
Proof.
  unfold recv. unfold Eff.bind at 1. unfold Eff.get.
  destruct (unbound self); [now eexists _, _ |].
  destruct (is_server self).
  - destruct (pipe_handle self) as [[clients | c] |]; try (now eexists _, _).
    unfold Eff.bind, Eff.emit. rewrite recv_clients_spec. now eexists _, _.
  - destruct (pipe_handle self) as [[clients | c] |]; try (now eexists _, _).
    assert (Hpoll : exists ev,
      (match wpipe.polls c with
       | false :: rest => poll_until_readable rest
       | _ => Eff.ret tt
       end) self = (ev, self, Ok tt)).
    { destruct (wpipe.polls c) as [| [] rest]; try (now exists []).
      destruct (poll_until_readable_spec rest self) as (ev & -> & _).
      now exists ev. }
    destruct Hpoll as (ev & Hpoll). unfold Eff.bind at 1. rewrite Hpoll.
    unfold Eff.bind, Eff.lift, Eff.ret.
    destruct (wpipe.client_read c) as [[| ch text] | e]; try (now eexists _, _).
    destruct (MessageObject.from_json (ch :: text)); now eexists _, _.
Qed.

Lemma handle_name_keeps name self ev s r :
  _handle_name name self = (ev, s, r) ->
  pipe_handle s = pipe_handle self /\ mode s = mode self.
Proof.
  unfold _handle_name, Eff.bind, Eff.get, Eff.modify, Eff.ret, Eff.raise.
  destruct name as [[| c n] |]; try destruct (_pipe_name self);
    intros E; inversion E; subst; split; reflexivity.
Qed.

Section Calls.

Variable wpipe_Server : str -> result wpipe.handle.
Variable wpipe_Client : str -> result wpipe.handle.

Lemma perform_bound c self h :
  pipe_handle self = Some h ->
  exists ev s failed,
    Session.perform wpipe_Server wpipe_Client c self = (ev, s, Ok failed) /\
    pipe_handle s = Some h /\ mode s = mode self /\
    (is_open_call c = true -> failed = true).
Proof.
  intros Hh. unfold Session.perform, Eff.try_except.
  destruct c as [name | name | m |]; cbn [is_open_call].
  - unfold Eff.bind at 1. unfold bind. unfold Eff.bind at 1.
    destruct (_handle_name name self) as [[ev0 s0] [nm |]] eqn:E.
    + assert (Hs0 : pipe_handle s0 = Some h /\ mode s0 = mode self).
      { destruct (handle_name_keeps _ _ _ _ _ E) as [H1 H2].
        split; congruence. }
      destruct Hs0 as [Hh0 Hm0]. unfold Eff.bind at 1. unfold Eff.get.
      rewrite Hh0. eexists _, _, _. split; [reflexivity |]. now repeat split.
    + assert (Hs0 : pipe_handle s0 = Some h /\ mode s0 = mode self).
      { destruct (handle_name_keeps _ _ _ _ _ E) as [H1 H2].
        split; congruence. }
      eexists _, _, _. split; [reflexivity |]. now repeat split.
  - unfold Eff.bind at 1. unfold connect. unfold Eff.bind at 1.
    destruct (_handle_name name self) as [[ev0 s0] [nm |]] eqn:E.
    + assert (Hs0 : pipe_handle s0 = Some h /\ mode s0 = mode self).
      { destruct (handle_name_keeps _ _ _ _ _ E) as [H1 H2].
        split; congruence. }
      destruct Hs0 as [Hh0 Hm0]. unfold Eff.bind at 1. unfold Eff.get.
      rewrite Hh0. eexists _, _, _. split; [reflexivity |]. now repeat split.
    + assert (Hs0 : pipe_handle s0 = Some h /\ mode s0 = mode self).
      { destruct (handle_name_keeps _ _ _ _ _ E) as [H1 H2].
        split; congruence. }
      eexists _, _, _. split; [reflexivity |]. now repeat split.
  - destruct (send_quiet m self) as (ev & r & E & _).
    unfold Eff.bind. rewrite E.
    destruct r as [[] | e]; eexists _, _, _;
      (split; [reflexivity |]); (repeat split; try assumption; discriminate).
  - destruct (recv_keeps_session self) as (ev & r & E).
    unfold Eff.bind. rewrite E.
    destruct r as [ms | e]; eexists _, _, _;
      (split; [reflexivity |]); (repeat split; try assumption; discriminate).
Qed.

Lemma perform_all_bound (calls : list Session.call) :
  forall (self : t) (h : wpipe.handle),
  pipe_handle self = Some h ->
  exists ev s flags,
    Session.perform_all wpipe_Server wpipe_Client calls self = (ev, s, Ok flags) /\
    pipe_handle s = Some h /\ mode s = mode self /\
    Forall2 (fun c failed => is_open_call c = true -> failed = true) calls flags.
Proof.
  induction calls as [| c rest IH]; intros self h Hh.
  - exists [], self, []. now repeat split.
  - cbn [Session.perform_all]. unfold Eff.bind at 1.
    destruct (perform_bound c self h Hh) as (ev & s & failed & -> & Hs & Hm & Hf).
    destruct (IH s h Hs) as (ev' & s' & flags & E & Hh' & Hm' & Hall).
    unfold Eff.bind, Eff.ret. rewrite E.
    eexists _, _, (failed :: flags). split; [reflexivity |].
    repeat split; try assumption; [congruence | now constructor].
Qed.

(** X7: once a session has a channel its mode is final: whatever calls
    follow ([bind], [connect], [send], [recv], with any arguments), the
    channel and the mode stay what they are, and every [bind] and
    [connect] among them raises. *)
Theorem bound_session_is_final (calls : list Session.call) (self : t)
  (h : wpipe.handle) :
  pipe_handle self = Some h ->
  exists flags,
    outcome (Session.perform_all wpipe_Server wpipe_Client calls self) = Ok flags /\
    pipe_handle (state (Session.perform_all wpipe_Server wpipe_Client calls self))
    = Some h /\
    mode (state (Session.perform_all wpipe_Server wpipe_Client calls self))
    = mode self /\
    Forall2 (fun c failed => is_open_call c = true -> failed = true) calls flags.
Proof.
  intros Hh.
  destruct (perform_all_bound calls self h Hh) as (ev & s & flags & -> & H).
  now exists flags.
Qed.

Lemma send_keeps_session m self :
  state (send m self) = self.
Proof. destruct (send_quiet m self) as (ev & r & -> & _). reflexivity. Qed.

Lemma perform_consistent c self :
  consistent self ->
  consistent (state (Session.perform wpipe_Server wpipe_Client c self)).
Proof.
  intros Hc. unfold Session.perform, Eff.try_except.
  destruct c as [name | name | m |].
  - pose proof (bind_consistent wpipe_Server wpipe_Client name self Hc) as H.
    unfold Eff.bind at 1.
    destruct (bind wpipe_Server name self) as [[ev s] [[] | e]]; exact H.
  - pose proof (connect_consistent wpipe_Server wpipe_Client name self Hc) as H.
    unfold Eff.bind at 1.
    destruct (connect wpipe_Client name self) as [[ev s] [[] | e]]; exact H.
  - pose proof (send_keeps_session m self) as H. unfold Eff.bind at 1.
    destruct (send m self) as [[ev s] [[] | e]];
      unfold state in *; cbn [fst snd] in *; now subst s.
  - destruct (recv_keeps_session self) as (ev & r & E).
    unfold Eff.bind. rewrite E. now destruct r.
Qed.

(** X8: every session reached from [__init__] by any calls of [bind],
    [connect], [send] and [recv], failed or not, is in one of two shapes:
    no channel and no mode, or a channel together with a mode and a
    remembered name. *)
Theorem reachable_sessions_consistent (os_dot_name : str) (self : t)
  (calls : list Session.call) :
  __init__ os_dot_name = Ok self ->
  consistent (state (Session.perform_all wpipe_Server wpipe_Client calls self)).
Proof.
  intros Hinit. apply init_consistent in Hinit. revert self Hinit.
  induction calls as [| c rest IH]; intros self Hc; [exact Hc |].
  cbn [Session.perform_all]. unfold Eff.bind at 1.
  pose proof (perform_consistent c self Hc) as H1.
  destruct (Session.perform wpipe_Server wpipe_Client c self)
    as [[ev s] [failed | e]]; unfold state in H1; cbn [fst snd] in H1.
  - specialize (IH s H1). unfold Eff.bind, Eff.ret.
    destruct (Session.perform_all wpipe_Server wpipe_Client rest s)
      as [[ev' s'] [flags | e]]; exact IH.
  - exact H1.
Qed.

End Calls.

Lemma bound_session_is_final_witness :
  exists flags,
    outcome (Session.perform_all Sample.accept_server Sample.accept_client
               [Session.Bind (Some (lit "other")); Session.Connect None;
                Session.Send Sample.hello; Session.Recv]
               (Sample.server_session Sample.three_peers)) = Ok flags /\
    pipe_handle
      (state (Session.perform_all Sample.accept_server Sample.accept_client
                [Session.Bind (Some (lit "other")); Session.Connect None;
                 Session.Send Sample.hello; Session.Recv]
                (Sample.server_session Sample.three_peers)))
    = Some (wpipe.Server Sample.three_peers) /\
    mode
      (state (Session.perform_all Sample.accept_server Sample.accept_client
                [Session.Bind (Some (lit "other")); Session.Connect None;
                 Session.Send Sample.hello; Session.Recv]
                (Sample.server_session Sample.three_peers)))
    = Some (lit "SERVER") /\
    Forall2 (fun c failed => is_open_call c = true -> failed = true)
      [Session.Bind (Some (lit "other")); Session.Connect None;
       Session.Send Sample.hello; Session.Recv] flags.
Proof.
  apply (bound_session_is_final Sample.accept_server Sample.accept_client
           [Session.Bind (Some (lit "other")); Session.Connect None;
            Session.Send Sample.hello; Session.Recv]
           (Sample.server_session Sample.three_peers)
           (wpipe.Server Sample.three_peers)).
  reflexivity.
Defined.

Lemma reachable_sessions_consistent_witness :
  consistent
    (state (Session.perform_all Sample.refuse Sample.accept_client
              [Session.Send Sample.hello; Session.Bind (Some (lit "relay"));
               Session.Connect None; Session.Recv]
              Sample.fresh_session)).
Proof.
  apply (reachable_sessions_consistent Sample.refuse Sample.accept_client
           (lit "nt") Sample.fresh_session).
  reflexivity.
Defined.

(** X9: a [bind] whose pipe cannot be opened raises what the collaborator
    raised, after printing the binding line, and leaves the session
    without channel but with the name remembered; a later [bind] without
    argument then opens the pipe under that name. *)
Theorem bind_retry_reuses_name (first second : str -> result wpipe.handle)
  (self : t) (c : N) (n : str) (e : exn) (h : wpipe.handle) :
  pipe_handle self = None ->
  first (c :: n) = Raise e ->
  second (c :: n) = Ok h ->
  bind first (Some (c :: n)) self
  = ([Print (lit "[+] Binding wpipe server to name: " ++ c :: n)],
     set_pipe_name (c :: n) self, Raise e)
  /\ bind second None (state (bind first (Some (c :: n)) self))
     = ([Print (lit "[+] Binding wpipe server to name: " ++ c :: n)],
        {| mode := Some (lit "SERVER"); _pipe_name := c :: n;
           pipe_handle := Some h |},
        Ok tt).
Proof.
  intros Hh Hfirst Hsecond.
  assert (E : bind first (Some (c :: n)) self
    = ([Print (lit "[+] Binding wpipe server to name: " ++ c :: n)],
       set_pipe_name (c :: n) self, Raise e)).
  { unfold bind. unfold Eff.bind at 1. rewrite handle_name_given.
    unfold Eff.bind at 1. unfold Eff.get. cbn [set_pipe_name pipe_handle].
    rewrite Hh. unfold Eff.bind, Eff.emit, Eff.lift. now rewrite Hfirst. }
  split; [exact E |]. rewrite E. unfold state. cbn [fst snd].
  apply (bind_success second None (set_pipe_name (c :: n) self) h).
  - exact Hh.
  - discriminate.
  - exact Hsecond.
Qed.

Lemma bind_retry_reuses_name_witness :
  is_server
    (state (bind Sample.accept_server None
              (state (bind Sample.refuse (Some (lit "relay"))
                        Sample.fresh_session)))) = true.
Proof.
  pose proof (proj2 (bind_retry_reuses_name Sample.refuse Sample.accept_server
                       Sample.fresh_session 114 (lit "elay") PipeError
                       (wpipe.Server []) eq_refl eq_refl eq_refl)) as H.
  apply (f_equal (fun o => is_server (state o))) in H. exact H.
Defined.




Lemma poll_until_readable_sleeps answers self :
  exists k,
    poll_until_readable answers self = (repeat (Sleep (1 # 2)) k, self, Ok tt)
    /\ (k <= List.length answers)%nat.
Proof.
  induction answers as [| [] rest IH]; try (exists 0%nat; split; [reflexivity | cbn; lia]).
  cbn [poll_until_readable]. unfold Eff.bind, Eff.emit.
  destruct IH as (k & -> & Hk). exists (S k). split; [reflexivity |].
  cbn [List.length]. lia.
Qed.

Lemma client_recv_sleeps (self : t) (c : wpipe.ClientEnd) :
  is_server self = false ->
  truthy (mode self) = true ->
  pipe_handle self = Some (wpipe.Client c) ->
  exists k,
    (k <= Nat.pred (List.length (wpipe.polls c)))%nat /\
    recv self
    = (repeat (Sleep (1 # 2)) k, self,
       match wpipe.client_read c with
       | Raise e => Raise e
       | Ok [] => Ok []
       | Ok (ch :: text) =>
           match MessageObject.from_json (ch :: text) with
           | Ok message => Ok [message]
           | Raise e => Raise e
           end
       end).
Proof.
  intros Hs Hm Hh. unfold recv. unfold Eff.bind at 1. unfold Eff.get.
  unfold unbound. rewrite Hh, Hm, Hs. cbn [negb orb app].
  assert (Hpoll : exists k,
    (k <= Nat.pred (List.length (wpipe.polls c)))%nat /\
    (match wpipe.polls c with
     | false :: rest => poll_until_readable rest
     | _ => Eff.ret tt
     end) self = (repeat (Sleep (1 # 2)) k, self, Ok tt)).
  { destruct (wpipe.polls c) as [| [] rest];
      try (exists 0%nat; split; [cbn; lia | reflexivity]).
    destruct (poll_until_readable_sleeps rest self) as (k & E & Hk).
    exists k. split; [cbn [List.length Nat.pred]; lia | exact E]. }
  destruct Hpoll as (k & Hk & Hpoll). exists k. split; [exact Hk |].
  unfold Eff.bind at 1. rewrite Hpoll.
  unfold Eff.bind, Eff.lift, Eff.ret.
  destruct (wpipe.client_read c) as [[| ch text] | e];
    try (now rewrite ?app_nil_r).
  destruct (MessageObject.from_json (ch :: text)); now rewrite ?app_nil_r.
Qed.

(** X11: a CLIENT [recv] sleeps half a second for each negative poll
    after the first, then reads once; it never changes the session.  It
    returns no envelope when the read is empty and one envelope when the
    text parses; a failure of the read or of the parse is not caught and
    raises out of [recv]. *)
Theorem client_recv_outcome (self : t) (c : wpipe.ClientEnd) :
  is_server self = false ->
  truthy (mode self) = true ->
  pipe_handle self = Some (wpipe.Client c) ->
  exists k,
    (k <= Nat.pred (List.length (wpipe.polls c)))%nat /\
    recv self
    = (repeat (Sleep (1 # 2)) k, self,
       match wpipe.client_read c with
       | Raise e => Raise e
       | Ok [] => Ok []
       | Ok (ch :: text) =>
           match MessageObject.from_json (ch :: text) with
           | Ok message => Ok [message]
           | Raise e => Raise e
           end
       end).
Proof. apply client_recv_sleeps. Qed.

Lemma client_recv_outcome_witness :
  exists k,
    (k <= 2)%nat /\
    recv SampleClient.session
    = (repeat (Sleep (1 # 2)) k, SampleClient.session, Ok [Sample.hello]).
Proof.
  destruct (client_recv_outcome SampleClient.session
              {| wpipe.polls := [false; false; true];
                 wpipe.client_read := Ok (MessageObject.to_json Sample.hello);
                 wpipe.client_write_ok := fun _ => true |}
              eq_refl eq_refl eq_refl) as (k & Hk & E).
  exists k. split; [exact Hk |]. rewrite E. f_equal.
Defined.

(** X12: in CLIENT mode [send] does not look at the destination: every
    envelope, one addressed to ["NORELAY"] included, is written once to
    the server, and a refused write raises to the caller. *)
Theorem client_send_writes_always (self : t) (c : wpipe.ClientEnd)
  (m : MessageObject.t) :
  is_server self = false ->
  truthy (mode self) = true ->
  pipe_handle self = Some (wpipe.Client c) ->
  (wpipe.client_write_ok c (MessageObject.to_json m) = true ->
     send m self = ([Write 0 (MessageObject.to_json m)], self, Ok tt)) /\
  (wpipe.client_write_ok c (MessageObject.to_json m) = false ->
     send m self = ([], self, Raise PipeError)).
Proof.
  intros Hs Hm Hh. rewrite (send_client_mode self c m Hs Hm Hh).
  split; intros ->; reflexivity.
Qed.

Lemma client_send_writes_always_witness :
  send Main.acknowledgement_message SampleClient.idle
  = ([Write 0 (MessageObject.to_json Main.acknowledgement_message)],
     SampleClient.idle, Ok tt).
Proof.
  apply (proj1 (client_send_writes_always SampleClient.idle
                  {| wpipe.polls := []; wpipe.client_read := Ok [];
                     wpipe.client_write_ok := fun _ => true |}
                  Main.acknowledgement_message eq_refl eq_refl eq_refl)).
  reflexivity.
Defined.

End TransportMore.

(* ================================================================= *)
(** ** Further properties of the queue, the worker and the ingress *)

Section DrainMore.

Import Root.

Lemma server_send_not_norelay self clients m :
  NamedPipeInterface.is_server self = true ->
  NamedPipeInterface.pipe_handle self = Some (wpipe.Server clients) ->
  py_eq_str (MessageObject.destination m) (lit "NORELAY") = false ->
  NamedPipeInterface.send m self
  = for_each clients
      (NamedPipeInterface.client_write (MessageObject.to_json m)) self.
Proof.
  intros Hs Hh Hm. unfold NamedPipeInterface.send. unfold Eff.bind at 1.
  unfold Eff.get. rewrite (is_server_bound _ _ Hs Hh), Hs, Hm, Hh.
  cbn [negb andb].
  now destruct (for_each clients _ self) as [[ev s] r].
Qed.

Lemma server_send_norelay self h m :
  NamedPipeInterface.is_server self = true ->
  NamedPipeInterface.pipe_handle self = Some h ->
  MessageObject.destination m = JStr (lit "NORELAY") ->
  NamedPipeInterface.send m self
  = ([Print (lit "[+] NORELAY flag set in message: " ++ MessageObject.to_json m)],
     self, Ok tt).
Proof.
  intros Hs Hh Hd. unfold NamedPipeInterface.send, Eff.bind, Eff.get.
  now rewrite (is_server_bound _ _ Hs Hh), Hs, Hd.
Qed.

(** X13: when no peer is connected, a drain pass still takes the head of
    the queue: the envelope is handed to [send], nothing is written, no
    failure is printed, and the payload is gone from the queue. *)
Theorem drain_without_peers_drops (self : t) (head : str) (rest : list str)
  (m : MessageObject.t) :
  message_queue self = head :: rest ->
  MessageObject.from_json head = Ok m ->
  py_eq_str (MessageObject.destination m) (lit "NORELAY") = false ->
  NamedPipeInterface.is_server (server self) = true ->
  NamedPipeInterface.pipe_handle (server self) = Some (wpipe.Server []) ->
  _message_thread_pass self = ([CallSend m], set_queue rest self, Ok tt).
Proof.
  intros Hq Hm Hd Hs Hh. rewrite (pass_nonempty _ _ _ Hq), Hm.
  now rewrite (server_send_not_norelay _ _ _ Hs Hh Hd).
Qed.

Lemma drain_without_peers_drops_witness :
  _message_thread_pass
    {| alive := true; message_queue := [MessageObject.to_json Sample.hello];
       server := Sample.server_session [] |}
  = ([CallSend Sample.hello],
     {| alive := true; message_queue := []; server := Sample.server_session [] |},
     Ok tt).
Proof.
  apply (drain_without_peers_drops
           {| alive := true; message_queue := [MessageObject.to_json Sample.hello];
              server := Sample.server_session [] |}
           (MessageObject.to_json Sample.hello) [] Sample.hello);
    reflexivity.
Defined.

(** X14: a queued envelope addressed to ["NORELAY"] is consumed by the
    drain pass like any other, but reaches no peer: the pass calls
    [send], which only prints its notice, and removes the payload. *)
Theorem drain_norelay_reaches_no_peer (self : t) (head : str)
  (rest : list str) (m : MessageObject.t) (h : wpipe.handle) :
  message_queue self = head :: rest ->
  MessageObject.from_json head = Ok m ->
  MessageObject.destination m = JStr (lit "NORELAY") ->
  NamedPipeInterface.is_server (server self) = true ->
  NamedPipeInterface.pipe_handle (server self) = Some h ->
  _message_thread_pass self
  = ([CallSend m;
      Print (lit "[+] NORELAY flag set in message: " ++ MessageObject.to_json m)],
     set_queue rest self, Ok tt)
  /\ writes (events (_message_thread_pass self)) = [].
Proof.
  intros Hq Hm Hd Hs Hh.
  assert (E : _message_thread_pass self
    = ([CallSend m;
        Print (lit "[+] NORELAY flag set in message: " ++ MessageObject.to_json m)],
       set_queue rest self, Ok tt)).
  { rewrite (pass_nonempty _ _ _ Hq), Hm.
    now rewrite (server_send_norelay _ _ _ Hs Hh Hd). }
  split; [exact E |]. now rewrite E.
Qed.

Lemma drain_norelay_reaches_no_peer_witness :
  writes (events (_message_thread_pass
                    (SampleRoot.running
                       [MessageObject.to_json Main.acknowledgement_message])))
  = [].
Proof.
  apply (drain_norelay_reaches_no_peer
           (SampleRoot.running
              [MessageObject.to_json Main.acknowledgement_message])
           (MessageObject.to_json Main.acknowledgement_message) []
           Main.acknowledgement_message (wpipe.Server Sample.three_peers));
    reflexivity.
Defined.

(** X15: when a peer's write fails during the fan-out of a queued
    envelope, the drain pass prints the failure and removes the payload
    all the same: the peers before the failing one have the message, the
    failing peer and the peers after it never get it, and it is not kept
    for another try. *)
Theorem drain_partial_fanout_not_retried (self : t) (head : str)
  (rest : list str) (m : MessageObject.t)
  (good : list wpipe.Client_) (bad : wpipe.Client_) (after : list wpipe.Client_) :
  message_queue self = head :: rest ->
  MessageObject.from_json head = Ok m ->
  py_eq_str (MessageObject.destination m) (lit "NORELAY") = false ->
  NamedPipeInterface.is_server (server self) = true ->
  NamedPipeInterface.pipe_handle (server self)
  = Some (wpipe.Server (good ++ bad :: after)) ->
  (forall c, In c good -> wpipe.write_ok c (MessageObject.to_json m) = true) ->
  wpipe.write_ok bad (MessageObject.to_json m) = false ->
  _message_thread_pass self
  = (CallSend m :: map (write_event (MessageObject.to_json m)) good
       ++ [PrintTransmitError PipeError head],
     set_queue rest self, Ok tt).
Proof.
  intros Hq Hm Hd Hs Hh Hgood Hbad. rewrite (pass_nonempty _ _ _ Hq), Hm.
  rewrite (server_send_not_norelay _ _ _ Hs Hh Hd).
  now rewrite (for_each_write_abort _ _ _ _ _ Hgood Hbad).
Qed.

Lemma drain_partial_fanout_not_retried_witness :
  _message_thread_pass (SampleRoot.running [MessageObject.to_json Sample.hello])
  = ([CallSend Sample.hello; Write 1 (MessageObject.to_json Sample.hello);
      PrintTransmitError PipeError (MessageObject.to_json Sample.hello)],
     SampleRoot.running [], Ok tt).
Proof.
  apply (drain_partial_fanout_not_retried
           (SampleRoot.running [MessageObject.to_json Sample.hello])
           (MessageObject.to_json Sample.hello) [] Sample.hello
           [Sample.peer 1 (Ok (MessageObject.to_json Sample.hello)) true]
           (Sample.peer 2 (Raise PipeError) false)
           [Sample.peer 3
              (Ok (json_text "{'source': 'C', 'destination': 'D', 'content': 'yo'}"))
              true]);
    try reflexivity.
  intros c [<- | []]. reflexivity.
Defined.

(** X16: a worker whose flag is not set does nothing at all, and a
    running worker over an empty queue only sleeps, half a second per
    pass, leaving the [Root] as it is. *)
Theorem idle_worker_only_sleeps (passes : nat) (self : t) :
  (alive self = false -> _message_thread passes self = ([], self, Ok tt)) /\
  (alive self = true -> message_queue self = [] ->
     _message_thread passes self
     = (repeat (Sleep (1 # 2)) passes, self, Ok tt)).
Proof.
  split.
  - intros Ha. destruct passes as [| n]; [reflexivity |].
    cbn [_message_thread]. unfold Eff.bind, Eff.get. now rewrite Ha.
  - intros Ha Hq. induction passes as [| n IH]; [reflexivity |].
    cbn [_message_thread]. unfold Eff.bind at 1. unfold Eff.get. rewrite Ha.
    unfold Eff.bind. rewrite (pass_empty _ Hq), IH. reflexivity.
Qed.

Lemma idle_worker_only_sleeps_witness :
  _message_thread 3 (__init__ Sample.fresh_session)
  = ([], __init__ Sample.fresh_session, Ok tt)
  /\ _message_thread 2 (SampleRoot.running [])
     = ([Sleep (1 # 2); Sleep (1 # 2)], SampleRoot.running [], Ok tt).
Proof.
  split.
  - apply (proj1 (idle_worker_only_sleeps 3 (__init__ Sample.fresh_session))).
    reflexivity.
  - apply (proj2 (idle_worker_only_sleeps 2 (SampleRoot.running [])));
      reflexivity.
Defined.

Lemma array_loop_yields_array fuel : forall s values v r,
  JSONArray_loop fuel s values = Some (v, r) -> exists items, v = JArr items.
Proof.
  induction fuel as [| fuel IH]; intros s values v r; [discriminate |].
  cbn [JSONArray_loop].
  destruct (scan_once fuel s) as [[value r0] |]; [| discriminate].
  destruct (skip_ws r0) as [| c r1]; [discriminate |].
  destruct (c =? 93); [intros [= <- _]; now eexists |].
  destruct (c =? 44); [apply IH | discriminate].
Qed.

Lemma from_json_array_text x :
  raised (MessageObject.from_json (91 :: x)) = true.
Proof.
  destruct (MessageObject.from_json (91 :: x)) as [m |] eqn:E; [| reflexivity].
  apply from_json_ok_object in E as (d & E & _).
  unfold loads, loads_with in E. rewrite skip_ws_stop in E by reflexivity.
  cbn [scan_once] in E. change (91 =? 34) with false in E.
  change (91 =? 123) with false in E. change (91 =? 91) with true in E.
  cbv iota in E.
  destruct (skip_ws x) as [| c1 r1]; [discriminate |].
  destruct (c1 =? 93).
  - destruct (skip_ws r1); discriminate.
  - destruct (JSONArray_loop _ (c1 :: r1) []) as [[v r] |] eqn:L; [| discriminate].
    apply array_loop_yields_array in L as [items ->].
    destruct (skip_ws r); discriminate.
Qed.

Lemma from_json_string_text x :
  raised (MessageObject.from_json (34 :: x)) = true.
Proof.
  destruct (MessageObject.from_json (34 :: x)) as [m |] eqn:E; [| reflexivity].
  apply from_json_ok_object in E as (d & E & _).
  unfold loads, loads_with in E. rewrite skip_ws_stop in E by reflexivity.
  cbn [scan_once] in E. change (34 =? 34) with true in E. cbv iota in E.
  destruct (scanstring x []) as [[y r] |]; [| discriminate].
  destruct (skip_ws r); discriminate.
Qed.

Lemma parsed_snoc_raised q p :
  raised (MessageObject.from_json p) = true -> parsed (q ++ [p]) = parsed q.
Proof.
  intros H. rewrite parsed_app. unfold parsed at 2. cbn [flat_map].
  destruct (MessageObject.from_json p); [discriminate |]. now rewrite app_nil_r.
Qed.

(** X17: [post_interface] does not require the body to be an object.  A
    number, boolean or null body raises [TypeError] and leaves the queue
    alone; an array body is accepted exactly when the three names are
    among its elements, and a string body when they are among its
    substrings.  Whatever a body that is not an object puts on the queue
    never becomes an envelope: the envelopes the queue holds are the same
    before and after. *)
Theorem post_interface_non_object (body : json) (self : t) :
  (forall d, body <> JObj d) ->
  parsed (message_queue (state (post_interface body self)))
  = parsed (message_queue self) /\
  match body with
  | JArr items =>
      outcome (post_interface body self)
      = Ok (operation_result
              (forallb (fun k => existsb (fun v => py_eq_str v k) items)
                 validate_set))
  | JStr text =>
      outcome (post_interface body self)
      = Ok (operation_result
              (forallb (fun k => str_contains text k) validate_set))
  | JObj _ => True
  | _ => post_interface body self = ([], self, Raise TypeError)
  end.
Proof.
  intros Hobj. rewrite post_interface_spec.
  destruct body as [| b | z | l | text | items | d];
    try (split; reflexivity); [| | now elim (Hobj d)].
  - unfold validate_set. cbn [check_keys py_in forallb].
    destruct (str_contains text (lit "source")),
      (str_contains text (lit "destination")),
      (str_contains text (lit "content"));
      cbn [andb state fst snd set_queue message_queue outcome];
      (split; [| reflexivity]); try reflexivity.
    apply parsed_snoc_raised. apply from_json_string_text.
  - unfold validate_set. cbn [check_keys py_in forallb].
    destruct (existsb (fun v => py_eq_str v (lit "source")) items),
      (existsb (fun v => py_eq_str v (lit "destination")) items),
      (existsb (fun v => py_eq_str v (lit "content")) items);
      cbn [andb state fst snd set_queue message_queue outcome];
      (split; [| reflexivity]); try reflexivity.
    apply parsed_snoc_raised. apply from_json_array_text.
Qed.

Lemma post_interface_non_object_witness :
  outcome (post_interface
             (JArr [JStr (lit "content"); JStr (lit "source");
                    JStr (lit "destination")])
             (SampleRoot.running []))
  = Ok (operation_result true)
  /\ parsed (message_queue
               (state (post_interface
                         (JArr [JStr (lit "content"); JStr (lit "source");
                                JStr (lit "destination")])
                         (SampleRoot.running []))))
     = [].
Proof.
  destruct (post_interface_non_object
              (JArr [JStr (lit "content"); JStr (lit "source");
                     JStr (lit "destination")])
              (SampleRoot.running [])) as [Hq Ho]; [discriminate |].
  split; [exact Ho | exact Hq].
Defined.

Import ServerProcess.

(** X18: an envelope posted as the object of its three string fields
    (strings that survive the codec) and then reached by a drain pass is
    handed to [send] equal to what was posted, and the queue is empty
    again. *)
Theorem post_then_drain_sends_equal (a b c : str) (srv : NamedPipeInterface.t) :
  valid_field a = true -> valid_field b = true -> valid_field c = true ->
  sends (events (run [Post (MessageObject.as_dictionary
                              (MessageObject.__init__ (JStr a) (JStr b) (JStr c)));
                      Pass]
                   {| alive := true; message_queue := []; server := srv |}))
  = [MessageObject.__init__ (JStr a) (JStr b) (JStr c)]
  /\ message_queue
       (state (run [Post (MessageObject.as_dictionary
                            (MessageObject.__init__ (JStr a) (JStr b) (JStr c)));
                    Pass]
                 {| alive := true; message_queue := []; server := srv |}))
     = []
  /\ outcome (Root.post_interface
                (MessageObject.as_dictionary
                   (MessageObject.__init__ (JStr a) (JStr b) (JStr c)))
                {| alive := true; message_queue := []; server := srv |})
     = Ok (operation_result true).
Proof.
  intros Ha Hb Hc.
  set (m := MessageObject.__init__ (JStr a) (JStr b) (JStr c)).
  assert (Hparse : MessageObject.from_json (MessageObject.to_json m) = Ok m).
  { unfold MessageObject.from_json. subst m.
    rewrite loads_to_json by assumption. reflexivity. }
  assert (Hpost : Root.post_interface (MessageObject.as_dictionary m)
                    {| alive := true; message_queue := []; server := srv |}
                  = ([Print (lit "[+] Broadcasting message: "
                               ++ MessageObject.to_json m)],
                     {| alive := true;
                        message_queue := [MessageObject.to_json m];
                        server := srv |},
                     Ok (operation_result true))).
  { rewrite post_interface_spec. reflexivity. }
  assert (Hrun : exists ev,
    run [Post (MessageObject.as_dictionary m); Pass]
      {| alive := true; message_queue := []; server := srv |}
    = (ev, {| alive := true; message_queue := []; server := srv |}, Ok tt)
    /\ sends ev = [m]).
  { unfold run. cbn [for_each step]. unfold Eff.bind at 1.
    unfold Eff.try_except. unfold Eff.bind at 1. rewrite Hpost.
    unfold Eff.ret at 1. cbn [app].
    unfold Eff.bind at 1. unfold Eff.bind at 1. unfold Eff.get. cbn [alive].
    rewrite (pass_nonempty
               {| alive := true; message_queue := [MessageObject.to_json m];
                  server := srv |} (MessageObject.to_json m) [] eq_refl).
    rewrite Hparse. cbn [server set_queue alive].
    destruct (send_quiet m srv) as (ev & r & -> & Hev).
    unfold events, outcome, Eff.ret. cbn [fst snd app].
    eexists. split; [reflexivity |].
    cbn [sends flat_map app].
    change (flat_map (fun e => match e with CallSend m0 => [m0] | _ => [] end)
              ?x) with (sends x).
    rewrite !sends_app, Hev. now destruct r. }
  destruct Hrun as (ev & -> & Hev).
  split; [exact Hev |]. split; [reflexivity |]. now rewrite Hpost.
Qed.

Lemma post_then_drain_sends_equal_witness :
  sends (events (run [Post (MessageObject.as_dictionary Sample.hello); Pass]
                   {| alive := true; message_queue := [];
                      server := Sample.server_session Sample.three_peers |}))
  = [Sample.hello].
Proof.
  apply (post_then_drain_sends_equal (lit "A") (lit "B") (lit "hi")
           (Sample.server_session Sample.three_peers)); reflexivity.
Defined.

End DrainMore.

(* ================================================================= *)
(** ** Further properties of the client loop and of the process *)

Section ClientMore.

Import NamedPipeInterface Main.

(** X19: when the write of the acknowledgement fails, the pass raises
    that failure and prints none of the envelopes it had received. *)
Theorem failed_acknowledgement_loses_batch (self : t) (c : wpipe.ClientEnd)
  (first : MessageObject.t) (others : list MessageObject.t) :
  is_server self = false ->
  truthy (mode self) = true ->
  pipe_handle self = Some (wpipe.Client c) ->
  outcome (recv self) = Ok (first :: others) ->
  wpipe.client_write_ok c (MessageObject.to_json acknowledgement_message) = false ->
  _client_thread_pass self
  = (events (recv self) ++ [CallSend acknowledgement_message], self,
     Raise PipeError)
  /\ prints (events (_client_thread_pass self)) = [].
Proof.
  intros Hs Hm Hh Hr Hw.
  destruct (recv_client_mode self c Hs Hm Hh) as (ev & r & Hrecv & _ & Hprints).
  rewrite Hrecv in Hr |- *. unfold outcome in Hr. cbn [snd] in Hr. subst r.
  assert (E : _client_thread_pass self
              = (ev ++ [CallSend acknowledgement_message], self, Raise PipeError)).
  { unfold _client_thread_pass, pipe_send. unfold Eff.bind at 1. rewrite Hrecv.
    unfold Eff.bind at 1. unfold Eff.bind at 1. unfold Eff.emit at 1.
    rewrite (send_client_mode self c acknowledgement_message Hs Hm Hh), Hw.
    reflexivity. }
  unfold events at 1. cbn [fst]. split; [exact E |].
  rewrite E. unfold events. cbn [fst]. now rewrite prints_app, Hprints.
Qed.

Lemma failed_acknowledgement_loses_batch_witness :
  _client_thread_pass
    (Sample.client_session
       {| wpipe.polls := [];
          wpipe.client_read := Ok (MessageObject.to_json Sample.hello);
          wpipe.client_write_ok := fun _ => false |})
  = ([CallSend acknowledgement_message],
     Sample.client_session
       {| wpipe.polls := [];
          wpipe.client_read := Ok (MessageObject.to_json Sample.hello);
          wpipe.client_write_ok := fun _ => false |},
     Raise PipeError).
Proof.
  apply (proj1 (failed_acknowledgement_loses_batch
                  (Sample.client_session
                     {| wpipe.polls := [];
                        wpipe.client_read := Ok (MessageObject.to_json Sample.hello);
                        wpipe.client_write_ok := fun _ => false |})
                  {| wpipe.polls := [];
                     wpipe.client_read := Ok (MessageObject.to_json Sample.hello);
                     wpipe.client_write_ok := fun _ => false |}
                  Sample.hello [] eq_refl eq_refl eq_refl
                  ltac:(vm_compute; reflexivity) eq_refl)).
Defined.

(** X20: the client loop has no handler of its own: a message from the
    server that does not parse ends the loop with the parse error, at the
    pass that reads it, without acknowledgement and without output. *)
Theorem malformed_message_ends_client_loop (self : t) (c : wpipe.ClientEnd)
  (ch : N) (text : str) (e : exn) (passes : nat) :
  is_server self = false ->
  truthy (mode self) = true ->
  pipe_handle self = Some (wpipe.Client c) ->
  wpipe.client_read c = Ok (ch :: text) ->
  MessageObject.from_json (ch :: text) = Raise e ->
  ClientLoop._client_thread (S passes) self
  = (events (recv self), self, Raise e)
  /\ sends (events (recv self)) = []
  /\ prints (events (recv self)) = []
  /\ writes (events (recv self)) = [].
Proof.
  intros Hs Hm Hh Hread Hparse.
  destruct (client_recv_sleeps self c Hs Hm Hh) as (k & _ & Hrecv).
  rewrite Hread, Hparse in Hrecv. rewrite Hrecv.
  unfold events. cbn [fst].
  assert (Hquiet : forall n, sends (repeat (Sleep (1 # 2)) n) = []
                             /\ prints (repeat (Sleep (1 # 2)) n) = []
                             /\ writes (repeat (Sleep (1 # 2)) n) = []).
  { induction n as [| n IH]; [now repeat split | exact IH]. }
  split; [| apply Hquiet].
  cbn [ClientLoop._client_thread]. unfold Eff.bind at 1.
  unfold _client_thread_pass. unfold Eff.bind at 1. now rewrite Hrecv.
Qed.

Lemma malformed_message_ends_client_loop_witness :
  outcome (ClientLoop._client_thread 5
             (Sample.client_session
                {| wpipe.polls := [];
                   wpipe.client_read := Ok (lit "{not json");
                   wpipe.client_write_ok := fun _ => true |}))
  = Raise JSONDecodeError.
Proof.
  rewrite (proj1 (malformed_message_ends_client_loop
                    (Sample.client_session
                       {| wpipe.polls := [];
                          wpipe.client_read := Ok (lit "{not json");
                          wpipe.client_write_ok := fun _ => true |})
                    {| wpipe.polls := [];
                       wpipe.client_read := Ok (lit "{not json");
                       wpipe.client_write_ok := fun _ => true |}
                    123 (lit "not json") JSONDecodeError 4
                    eq_refl eq_refl eq_refl eq_refl eq_refl)).
  reflexivity.
Defined.

End ClientMore.

Section ProcessMore.

Import Process.

Variable os_dot_name : str.
Variable wpipe_Server : str -> result wpipe.handle.
Variable wpipe_Client : str -> result wpipe.handle.
Variable passes : nat.
Variable schedule : list ServerProcess.action.

Lemma init_on_windows :
  os_dot_name = lit "nt" ->
  NamedPipeInterface.__init__ os_dot_name = Ok Sample.fresh_session.
Proof. intros ->. reflexivity. Qed.

(** X21: [entry_point] takes the client role only when the mode is
    exactly ["client"].  For every other mode, the alias ["c"] that the
    argument parser accepts included, it binds the pipe as SERVER, builds
    the [Root] on it, sets the worker's flag and hands over to cherrypy
    on the given port. *)
Theorem entry_point_role (a : args) (ch : N) (text : str) (h : wpipe.handle) :
  os_dot_name = lit "nt" ->
  name a = ch :: text ->
  (mode a = lit "client" ->
   wpipe_Client (name a) = Ok h ->
   entry_point os_dot_name wpipe_Server wpipe_Client passes schedule a __init__
   = (map Core
        (events (ClientLoop._client_thread passes
                   {| NamedPipeInterface.mode := Some (lit "CLIENT");
                      NamedPipeInterface._pipe_name := name a;
                      NamedPipeInterface.pipe_handle := Some h |})),
      {| root_object := None;
         pipe_object :=
           Some (state (ClientLoop._client_thread passes
                          {| NamedPipeInterface.mode := Some (lit "CLIENT");
                             NamedPipeInterface._pipe_name := name a;
                             NamedPipeInterface.pipe_handle := Some h |}));
         client_active := true |},
      outcome (ClientLoop._client_thread passes
                 {| NamedPipeInterface.mode := Some (lit "CLIENT");
                    NamedPipeInterface._pipe_name := name a;
                    NamedPipeInterface.pipe_handle := Some h |}))) /\
  (mode a <> lit "client" ->
   wpipe_Server (name a) = Ok h ->
   entry_point os_dot_name wpipe_Server wpipe_Client passes schedule a __init__
   = (Core (Print (lit "[+] Binding wpipe server to name: " ++ name a))
        :: ConfigUpdate (port a) :: Quickstart
        :: map Core
             (events (ServerProcess.run schedule
                        {| Root.alive := true; Root.message_queue := [];
                           Root.server :=
                             {| NamedPipeInterface.mode := Some (lit "SERVER");
                                NamedPipeInterface._pipe_name := name a;
                                NamedPipeInterface.pipe_handle := Some h |} |})),
      {| root_object :=
           Some (state (ServerProcess.run schedule
                          {| Root.alive := true; Root.message_queue := [];
                             Root.server :=
                               {| NamedPipeInterface.mode := Some (lit "SERVER");
                                  NamedPipeInterface._pipe_name := name a;
                                  NamedPipeInterface.pipe_handle := Some h |} |}));
         pipe_object :=
           Some {| NamedPipeInterface.mode := Some (lit "SERVER");
                   NamedPipeInterface._pipe_name := name a;
                   NamedPipeInterface.pipe_handle := Some h |};
         client_active := false |},
      outcome (ServerProcess.run schedule
                 {| Root.alive := true; Root.message_queue := [];
                    Root.server :=
                      {| NamedPipeInterface.mode := Some (lit "SERVER");
                         NamedPipeInterface._pipe_name := name a;
                         NamedPipeInterface.pipe_handle := Some h |} |}))).
Proof.
  intros Hos Hname. unfold entry_point. rewrite (init_on_windows Hos).
  split.
  - intros Hmode Hopen. rewrite Hmode.
    rewrite (proj2 (str_eqb_eq _ _) eq_refl).
    destruct (connect_success wpipe_Client (Some (name a)) Sample.fresh_session h)
      as [E _].
    + reflexivity.
    + rewrite Hname. discriminate.
    + rewrite Hname in *. exact Hopen.
    + rewrite Hname in *. cbn [chosen_name] in E. rewrite E.
      destruct (ClientLoop._client_thread passes _) as [[ev' pipe'] r].
      reflexivity.
  - intros Hmode Hopen.
    destruct (str_eqb (mode a) (lit "client")) eqn:Hm.
    { apply str_eqb_eq in Hm. contradiction. }
    destruct (bind_success wpipe_Server (Some (name a)) Sample.fresh_session h)
      as [E _].
    + reflexivity.
    + rewrite Hname. discriminate.
    + rewrite Hname in *. exact Hopen.
    + rewrite Hname in *. cbn [chosen_name] in E. rewrite E.
      unfold Root.start_message_thread, Eff.modify, Root.__init__, Root.set_alive.
      cbn [Root.message_queue Root.server].
      destruct (ServerProcess.run schedule _) as [[ev' root'] r].
      reflexivity.
Qed.

(** X22: the process always ends through [quit].  When [entry_point]
    stopped before a channel existed (the session could not be created
    because the host is not Windows, or the pipe could not be opened),
    [quit] itself raises [AttributeError], and that is the error the
    process ends with, in place of the one that stopped it.  When a
    channel exists, it is closed once, last, and the outcome of
    [entry_point] stands. *)
Theorem exit_goes_through_quit (a : args) :
  (os_dot_name <> lit "nt" ->
   main os_dot_name wpipe_Server wpipe_Client passes schedule a
   = ([], __init__, Raise AttributeError)) /\
  (forall ev self r,
     entry_point os_dot_name wpipe_Server wpipe_Client passes schedule a __init__
     = (ev, self, r) ->
     (has_channel self = false ->
      main os_dot_name wpipe_Server wpipe_Client passes schedule a
      = (ev, self, Raise AttributeError)) /\
     (has_channel self = true ->
      main os_dot_name wpipe_Server wpipe_Client passes schedule a
      = (ev ++ [Close], self, r))).
Proof.
  split.
  - intros Hos. unfold main, entry_point, NamedPipeInterface.__init__.
    destruct (str_eqb os_dot_name (lit "nt")) eqn:E.
    { apply str_eqb_eq in E. contradiction. }
    reflexivity.
  - intros ev self r E. unfold main. rewrite E. unfold quit, close, has_channel.
    destruct (pipe_object self) as [pipe |].
    + destruct (NamedPipeInterface.pipe_handle pipe); split;
        (discriminate || intros _; now rewrite ?app_nil_r).
    + split; (discriminate || intros _; now rewrite ?app_nil_r).
Qed.

End ProcessMore.

Lemma entry_point_role_witness :
  Process.entry_point (lit "nt") Sample.accept_server Sample.accept_client 1 []
    {| Process.mode := lit "c"; Process.name := lit "relay"; Process.port := 8080 |}
    Process.__init__
  = ([Process.Core (Print (lit "[+] Binding wpipe server to name: relay"));
      Process.ConfigUpdate 8080; Process.Quickstart],
     {| Process.root_object :=
          Some {| Root.alive := true; Root.message_queue := [];
                  Root.server := Sample.server_session [] |};
        Process.pipe_object := Some (Sample.server_session []);
        Process.client_active := false |},
     Ok tt).
Proof.
  apply (proj2 (entry_point_role (lit "nt") Sample.accept_server
                  Sample.accept_client 1 []
                  {| Process.mode := lit "c"; Process.name := lit "relay";
                     Process.port := 8080 |}
                  114 (lit "elay") (wpipe.Server []) eq_refl eq_refl)).
  - discriminate.
  - reflexivity.
Defined.

Lemma exit_goes_through_quit_witness :
  Process.main (lit "posix") Sample.accept_server Sample.accept_client 1 []
    {| Process.mode := lit "server"; Process.name := lit "relay";
       Process.port := 8080 |}
  = ([], Process.__init__, Raise AttributeError).
Proof.
  apply (proj1 (exit_goes_through_quit (lit "posix") Sample.accept_server
                  Sample.accept_client 1 []
                  {| Process.mode := lit "server"; Process.name := lit "relay";
                     Process.port := 8080 |})).
  discriminate.
Defined.
